(** * tprstorage: a key-value store kept in one third party object

    A shallow embedding of [storage.go] (package [tprstorage]) and of the
    collaborators it talks to, followed by the properties of the key-value
    contract ([Create]/[Put], [Search]/[Exists], [List], [Delete]) and of
    the bootstrap done by [New].  The older copy of the package, with its
    hard-coded namespace and object name, is module [Legacy].

    Conventions of the embedding.
    - A Go [error] value is [option error]; [None] is [nil].
    - A Go function returning [(T, error)] returns a pair here as well.
    - A byte slice holding a JSON text is identified with the JSON value
      it denotes ([json]); [encoding/json] is the pair [json_Marshal] and
      [json_Unmarshal] over that type.
    - A Go [map[string]string] is a [gmap string string]; the [nil] map and
      the empty map are identified (both read as empty, both range over
      nothing).
    - Calls on the Kubernetes client change the cluster: they are functions
      [W → W * result] over a type [W] of cluster states.  The methods of
      [Storage] run in [IO W], which threads the cluster and the lines
      written to the logger.
    - A run-time panic (index or slice out of range) is the [Panicked]
      outcome.  The [context.Context] argument carries no data and is left
      out. *)

From Stdlib Require Import Ascii String.
From stdpp Require Import gmap strings list fin_maps.

#[local] Set Warnings "-register-all".
#[local] Open Scope string_scope.

(** ** Go strings and run-time checks *)

Module Go.

Inductive outcome (A : Type) : Type :=
  | Returned (a : A)
  | Panicked (msg : string).
Arguments Returned {A} a.
Arguments Panicked {A} msg.

Definition bind {A B} (o : outcome A) (k : A → outcome B) : outcome B :=
  match o with
  | Returned a => k a
  | Panicked msg => Panicked msg
  end.

(** [len(s)]: Go strings are byte sequences, as [string] is here.  A
    length is far below the largest [int], so [len(s) + 1] does not wrap
    and lengths are plain natural numbers. *)
Definition len (s : string) : nat := String.length s.

(** [s[i]] panics unless [0 <= i < len(s)]. *)
Definition index (s : string) (i : nat) : outcome ascii :=
  match String.get i s with
  | Some c => Returned c
  | None => Panicked "index out of range"
  end.

(** [s[low:]] panics unless [0 <= low <= len(s)]. *)
Definition slice_from (s : string) (low : nat) : outcome string :=
  if decide (low ≤ len s)%nat
  then Returned (String.substring low (len s - low) s)
  else Panicked "slice bounds out of range".

(** [strings.HasPrefix(s, prefix)]. *)
Definition HasPrefix (s prefix : string) : bool := String.prefix prefix s.

End Go.

Notation "x ←! o ; k" := (Go.bind o (λ x, k))
  (at level 20, o at level 100, k at level 200, only parsing).

(** ** JSON values *)

Inductive json : Type :=
  | JNull
  | JBool (b : bool)
  | JNumber (n : Z)
  | JString (s : string)
  | JArray (items : list json)
  | JObject (fields : gmap string json).

Definition fields_of (j : json) : gmap string json :=
  match j with
  | JObject f => f
  | _ => ∅
  end.

(** ** Kubernetes API types *)

Module apismeta.

Record TypeMeta := {
  Kind : string;
  APIVersion : string
}.

Record ObjectMeta := {
  Name : string;
  Namespace : string;
  Annotations : gmap string string
}.

End apismeta.

Module api.

(** [api.Namespace]. *)
Record Namespace := {
  ObjectMeta : apismeta.ObjectMeta
}.

End api.

(** Modelled from the spec: the type [customObject], declared outside
    [storage.go].  Its JSON form has the top-level fields [kind],
    [apiVersion], [metadata] (with [name], [namespace], [annotations]) and
    [data], a flat string-to-string object that is always present. *)
Record customObject := {
  TypeMeta : apismeta.TypeMeta;
  ObjectMeta : apismeta.ObjectMeta;
  Data : gmap string string
}.

(** [types.PatchType]. *)
Inductive PatchType :=
  | JSONPatchType
  | MergePatchType
  | StrategicMergePatchType.

(** ** Errors *)

(** [metav1.StatusReason], the classes of API failure used below. *)
Inductive StatusReason :=
  | StatusReasonAlreadyExists
  | StatusReasonNotFound
  | StatusReasonBadRequest
  | StatusReasonInvalid
  | StatusReasonUnsupportedMediaType
  | StatusReasonServiceUnavailable.

(** The errors the collaborators hand back: operatorkit's tpr package, the
    API server (a status with a reason), [encoding/json], and the transport
    underneath. *)
Inductive foreign :=
  | tprAlreadyExistsError
  | tprInvalidConfigError
  | StatusError (reason : StatusReason)
  | UnmarshalTypeError
  | transportError (detail : string).

(** The root of an error.  [invalidConfigError] and [notFoundError] are the
    error values of this package.  They are unexported, so no collaborator
    can return them: what a collaborator returns has type [foreign]. *)
Inductive cause :=
  | invalidConfigError
  | notFoundError
  | Foreign (f : foreign).

Inductive fmtarg :=
  | ArgString (s : string)
  | ArgJSON (j : json)
  | ArgNamespace (ns : api.Namespace)
  | ArgObject (o : customObject).

Record annotation := {
  format : string;
  args : list fmtarg
}.

(** An error value: its root, and the messages masking has put around it,
    outermost first. *)
Record error := {
  Cause : cause;
  masks : list annotation
}.

Definition errorOf (c : cause) : error := {| Cause := c; masks := [] |}.

(** An error of a collaborator, seen as a Go [error]. *)
Definition foreign_error (f : foreign) : error := errorOf (Foreign f).
Coercion foreign_error : foreign >-> error.

Module microerror.

(** [microerror.Maskf(err, f, v...)]: same root, one more message. *)
Definition Maskf (err : error) (f : string) (v : list fmtarg) : error :=
  {| Cause := Cause err; masks := {| format := f; args := v |} :: masks err |}.

(** [microerror.Mask(err)]: same root; [nil] stays [nil]. *)
Definition Mask (err : option error) : option error := err.

End microerror.

#[global] Instance StatusReason_eq_dec : EqDecision StatusReason.
Proof. solve_decision. Defined.

#[global] Instance foreign_eq_dec : EqDecision foreign.
Proof. solve_decision. Defined.

#[global] Instance cause_eq_dec : EqDecision cause.
Proof. solve_decision. Defined.

Definition hasCause (c : cause) (err : option error) : bool :=
  match err with
  | Some e => bool_decide (Cause e = c)
  | None => false
  end.

(** [IsInvalidConfig] and [IsNotFound] of this package. *)
Definition IsInvalidConfig : option error → bool := hasCause invalidConfigError.
Definition IsNotFound : option error → bool := hasCause notFoundError.

(** [tpr.IsAlreadyExists] and [errors.IsAlreadyExists]. *)
Definition tpr_IsAlreadyExists (err : option foreign) : bool :=
  bool_decide (err = Some tprAlreadyExistsError).
Definition errors_IsAlreadyExists (err : option foreign) : bool :=
  bool_decide (err = Some (StatusError StatusReasonAlreadyExists)).

(** ** encoding/json *)

Definition Marshal_strings (m : gmap string string) : json :=
  JObject (JString <$> m).

Definition Marshal_pointers (m : gmap string (option string)) : json :=
  JObject ((λ p, match p with Some s => JString s | None => JNull end) <$> m).

Definition Marshal_ObjectMeta (m : apismeta.ObjectMeta) : json :=
  JObject {[ "name" := JString (apismeta.Name m);
             "namespace" := JString (apismeta.Namespace m);
             "annotations" := Marshal_strings (apismeta.Annotations m) ]}.

Definition Marshal_customObject (o : customObject) : json :=
  JObject {[ "kind" := JString (apismeta.Kind (TypeMeta o));
             "apiVersion" := JString (apismeta.APIVersion (TypeMeta o));
             "metadata" := Marshal_ObjectMeta (ObjectMeta o);
             "data" := Marshal_strings (Data o) ]}.

(** [json.Marshal(&v)] for the values this package encodes; none of them
    can fail to encode. *)
Definition json_Marshal {A} (encode : A → json) (v : A) : json * option foreign :=
  (encode v, None).

(** Decoding into a Go [string]: [null] and an absent field leave the zero
    value, any other non-string is a type error. *)
Definition decode_string (j : option json) : option string :=
  match j with
  | None | Some JNull => Some ""
  | Some (JString s) => Some s
  | Some _ => None
  end.

Definition string_of (j : json) : string :=
  match j with
  | JString s => s
  | _ => ""
  end.

(** Decoding into a Go [map[string]string]. *)
Definition decode_strings (j : option json) : option (gmap string string) :=
  match j with
  | None | Some JNull => Some ∅
  | Some (JObject f) =>
      if decide (map_Forall (λ _ v, is_Some (decode_string (Some v))) f)
      then Some (string_of <$> f)
      else None
  | Some _ => None
  end.

Definition zero_ObjectMeta : apismeta.ObjectMeta :=
  {| apismeta.Name := ""; apismeta.Namespace := ""; apismeta.Annotations := ∅ |}.

Definition zero_customObject : customObject :=
  {| TypeMeta := {| apismeta.Kind := ""; apismeta.APIVersion := "" |};
     ObjectMeta := zero_ObjectMeta;
     Data := ∅ |}.

Definition decode_ObjectMeta (j : option json) : option apismeta.ObjectMeta :=
  match j with
  | None | Some JNull => Some zero_ObjectMeta
  | Some (JObject f) =>
      name ← decode_string (f !! "name");
      namespace ← decode_string (f !! "namespace");
      annotations ← decode_strings (f !! "annotations");
      Some {| apismeta.Name := name; apismeta.Namespace := namespace;
              apismeta.Annotations := annotations |}
  | Some _ => None
  end.

Definition decode_customObject (j : json) : option customObject :=
  match j with
  | JNull => Some zero_customObject
  | JObject f =>
      kind ← decode_string (f !! "kind");
      apiVersion ← decode_string (f !! "apiVersion");
      metadata ← decode_ObjectMeta (f !! "metadata");
      data ← decode_strings (f !! "data");
      Some {| TypeMeta := {| apismeta.Kind := kind; apismeta.APIVersion := apiVersion |};
              ObjectMeta := metadata; Data := data |}
  | _ => None
  end.

(** [json.Unmarshal(res, &v)] for [v] a [customObject]. *)
Definition json_Unmarshal (res : json) : customObject * option foreign :=
  match decode_customObject res with
  | Some v => (v, None)
  | None => (zero_customObject, Some UnmarshalTypeError)
  end.

(** ** Collaborators: the Kubernetes client, the logger, operatorkit's tpr *)

Module kubernetes.

(** The part of [kubernetes.Interface] the package calls.  Each call is
    one round trip that may change the cluster state [W].
    - [Namespaces_Create]: [CoreV1().Namespaces().Create(&ns)].
    - [Post], [Patch], [Get]: [Core().RESTClient()] requests built with
      [AbsPath], [Body] and finished by [DoRaw]. *)
Record Interface (W : Type) := {
  Namespaces_Create : api.Namespace → W → W * option foreign;
  Post : string → json → W → W * (json * option foreign);
  Patch : PatchType → string → json → W → W * (json * option foreign);
  Get : string → W → W * (json * option foreign)
}.
Arguments Namespaces_Create {W}.
Arguments Post {W}.
Arguments Patch {W}.
Arguments Get {W}.

End kubernetes.

Module micrologger.

(** A logger is the key-value context it adds to every line. *)
Record Logger := {
  context : list string
}.

Definition With (l : Logger) (kv : list string) : Logger :=
  {| context := (context l ++ kv)%list |}.

End micrologger.

Module tpr.

Record Config (W : Type) := {
  Logger : option micrologger.Logger;
  K8sClient : option (kubernetes.Interface W);
  Name : string;
  Version : string;
  Description : string
}.
Arguments Logger {W}.
Arguments K8sClient {W}.
Arguments Name {W}.
Arguments Version {W}.
Arguments Description {W}.

Record TPR (W : Type) := {
  CreateAndWait : W → W * option foreign;
  Endpoint : string → string;
  Kind : string;
  APIVersion : string
}.
Arguments CreateAndWait {W}.
Arguments Endpoint {W}.
Arguments Kind {W}.
Arguments APIVersion {W}.

End tpr.

(** ** The effects of a method: cluster state and log output *)

Record env (W : Type) := {
  cluster : W;
  logged : list (list string)
}.
Arguments cluster {W}.
Arguments logged {W}.

Definition IO (W A : Type) : Type := env W → env W * A.

Definition ret {W A} (a : A) : IO W A := λ e, (e, a).

Definition bind {W A B} (m : IO W A) (k : A → IO W B) : IO W B :=
  λ e, let '(e', a) := m e in k a e'.

Notation "x ←$ m ; k" := (bind m (λ x, k))
  (at level 20, m at level 100, k at level 200, only parsing).
Notation "' x ←$ m ; k" := (bind m (λ x, k))
  (at level 20, x pattern, m at level 100, k at level 200, only parsing).

(** One round trip to the cluster. *)
Definition call {W A} (rpc : W → W * A) : IO W A :=
  λ e, let '(w', a) := rpc (cluster e) in
       ({| cluster := w'; logged := logged e |}, a).

(** [logger.Log(v...)]; the error it returns is dropped by every caller. *)
Definition Log {W} (l : micrologger.Logger) (v : list string) : IO W unit :=
  λ e, ({| cluster := cluster e;
           logged := (logged e ++ [v ++ micrologger.context l])%list |}, tt).

(** ** Package tprstorage *)

Module TPRConfig.
Record t := {
  Name : string;
  Version : string;
  Description : string
}.
End TPRConfig.

Module TPOConfig.
Record t := {
  Name : string;
  Namespace : string
}.
End TPOConfig.

Record Config (W : Type) := {
  K8sClient : option (kubernetes.Interface W);
  Logger : option micrologger.Logger;
  TPR : TPRConfig.t;
  TPO : TPOConfig.t
}.
Arguments K8sClient {W}.
Arguments Logger {W}.
Arguments TPR {W}.
Arguments TPO {W}.

Definition DefaultConfig {W} : Config W :=
  {| K8sClient := None;
     Logger := None;
     TPR := {| TPRConfig.Name := "tpr-storage.giantswarm.io";
               TPRConfig.Version := "v1";
               TPRConfig.Description :=
                 "Storage data managed by github.com/giantswarm/tprstorage" |};
     TPO := {| TPOConfig.Name := ""; TPOConfig.Namespace := "giantswarm" |} |}.

Record Storage (W : Type) := {
  logger : micrologger.Logger;
  logctx : list string;
  k8sClient : kubernetes.Interface W;
  tpr_ : tpr.TPR W;
  tpoEndpoint : string;
  tpoListEndpoint : string
}.
Arguments logger {W}.
Arguments logctx {W}.
Arguments k8sClient {W}.
Arguments tpr_ {W}.
Arguments tpoEndpoint {W}.
Arguments tpoListEndpoint {W}.

(** The anonymous struct [Put] encodes:
    [struct { Data map[string]string `json:"data"` }]. *)
Record putDocument := {
  put_Data : gmap string string
}.

Definition Marshal_putDocument (v : putDocument) : json :=
  JObject {[ "data" := Marshal_strings (put_Data v) ]}.

(** The anonymous struct [Delete] encodes:
    [struct { Data map[string]*string `json:"data"` }]; a [nil] pointer is
    [None] and encodes as [null]. *)
Record deleteDocument := {
  delete_Data : gmap string (option string)
}.

Definition Marshal_deleteDocument (v : deleteDocument) : json :=
  JObject {[ "data" := Marshal_pointers (delete_Data v) ]}.

(** The body of the loop of [List] over the keys in the order [ks] in which
    the [range] statement visits them. *)
Fixpoint List_range (key : string) (ks : list string) (lst : list string)
  : Go.outcome (list string) :=
  let keyLen := Go.len key in
  match ks with
  | [] => Go.Returned lst
  | k :: rest =>
      if negb (Go.HasPrefix k key) then List_range key rest lst
      else
        skip ←! (if decide (Go.len k ≠ keyLen)
                 then c ←! Go.index k keyLen;
                      Go.Returned (bool_decide (c ≠ "/"%char))
                 else Go.Returned false);
        if (skip : bool) then List_range key rest lst
        else
          sub ←! Go.slice_from k (keyLen + 1);
          List_range key rest (lst ++ [sub])%list
  end.

(** One provisioning block of [New]: an error ends [New], [nil] goes on. *)
Notation "'try!' c ; k" :=
  (bind c (λ r, match r with
                | Some err => ret (None, Some err)
                | None => k
                end))
  (at level 20, c at level 100, k at level 200, only parsing).

Section Methods.

Context {W : Type}.

(** [tpr.New] of operatorkit. *)
Variable tpr_New : tpr.Config W → foreign + tpr.TPR W.

(** The order in which a [range] over a map yields its keys; Go leaves
    it unspecified. *)
Variable range_keys : gmap string string → list string.

Definition New (config : Config W)
  : IO W (option (Storage W) * option error) :=
  match K8sClient config with
  | None => ret (None, Some (microerror.Maskf (errorOf invalidConfigError)
                                "config.K8sClient is nil" []))
  | Some config_K8sClient =>
  match Logger config with
  | None => ret (None, Some (microerror.Maskf (errorOf invalidConfigError)
                                "config.Logger is nil" []))
  | Some config_Logger =>
  if decide (TPRConfig.Name (TPR config) = "") then
    ret (None, Some (microerror.Maskf (errorOf invalidConfigError)
                        "config.TPR.Name is empty" []))
  else if decide (TPRConfig.Version (TPR config) = "") then
    ret (None, Some (microerror.Maskf (errorOf invalidConfigError)
                        "config.TPR.Version is empty" []))
  else if decide (TPOConfig.Name (TPO config) = "") then
    ret (None, Some (microerror.Maskf (errorOf invalidConfigError)
                        "config.TPO.Name is empty" []))
  else
  let config_TPO_Namespace :=
    if decide (TPOConfig.Namespace (TPO config) = "")
    then "default" else TPOConfig.Namespace (TPO config) in
  let c := {| tpr.Logger := Some config_Logger;
              tpr.K8sClient := Some config_K8sClient;
              tpr.Name := TPRConfig.Name (TPR config);
              tpr.Version := TPRConfig.Version (TPR config);
              tpr.Description := TPRConfig.Description (TPR config) |} in
  match tpr_New c with
  | inl err => ret (None, microerror.Mask (Some (err : error)))
  | inr newTPR =>
  let s := {|
    k8sClient := config_K8sClient;
    tpr_ := newTPR;
    tpoEndpoint := tpr.Endpoint newTPR config_TPO_Namespace
                   +:+ "/" +:+ TPOConfig.Name (TPO config);
    tpoListEndpoint := tpr.Endpoint newTPR config_TPO_Namespace;
    logger := micrologger.With config_Logger
      [ "tprName"; TPRConfig.Name (TPR config);
        "tprVersion"; TPRConfig.Version (TPR config);
        "tpoName"; TPOConfig.Name (TPO config);
        "tpoNamespace"; config_TPO_Namespace ];
    logctx := [] |} in
  (* Create TPR resource. *)
  try! (err ←$ call (tpr.CreateAndWait (tpr_ s));
        if tpr_IsAlreadyExists err then
          _ ←$ Log (logger s) ["debug"; "TPR already exists"]; ret None
        else match err with
        | Some err => ret (microerror.Mask (Some (err : error)))
        | None =>
          _ ←$ Log (logger s) ["debug"; "TPR created"]; ret None
        end);
  (* Create namespace. *)
  try! (let ns := {| api.ObjectMeta := {|
                       apismeta.Name := config_TPO_Namespace;
                       apismeta.Namespace := config_TPO_Namespace;
                       apismeta.Annotations := ∅ |} |} in
        let ns_Name := apismeta.Name (api.ObjectMeta ns) in
        err ←$ call (kubernetes.Namespaces_Create (k8sClient s) ns);
        if errors_IsAlreadyExists err then
          _ ←$ Log (logger s) ["debug"; "namespace " +:+ ns_Name +:+ " already exists"];
            ret None
        else match err with
        | Some err =>
          ret (Some (microerror.Maskf err "creating namespace %#v"
                        [ArgNamespace ns]))
        | None =>
          _ ←$ Log (logger s) ["debug"; "namespace " +:+ ns_Name +:+ " created"];
            ret None
        end);
  (* Create TPO. *)
  try! (let tpo := {|
          TypeMeta := {| apismeta.Kind := tpr.Kind (tpr_ s);
                         apismeta.APIVersion := tpr.APIVersion (tpr_ s) |};
          ObjectMeta := {|
            apismeta.Name := TPOConfig.Name (TPO config);
            apismeta.Namespace := config_TPO_Namespace;
            apismeta.Annotations :=
              {[ "storageDoNotOmitempty" := "non-empty" ]} |};
          (* Data must be not empty so patches do not fail. *)
          Data := ∅ |} in
        let tpo_Name := apismeta.Name (ObjectMeta tpo) in
        let '(body, err) := json_Marshal Marshal_customObject tpo in
        match err with
        | Some err =>
          ret (Some (microerror.Maskf err "marshaling %#v" [ArgObject tpo]))
        | None =>
          '(_, err) ←$ call (kubernetes.Post (k8sClient s)
                              (tpoListEndpoint s) body);
          if errors_IsAlreadyExists err then
            _ ←$ Log (logger s) ["debug"; "TPO " +:+ tpo_Name +:+ " already exists"];
            ret None
          else match err with
          | Some err =>
            ret (Some (microerror.Maskf err "creating TPO %#v" [ArgObject tpo]))
          | None =>
            _ ←$ Log (logger s) ["debug"; "TPO " +:+ tpo_Name +:+ " created"];
            ret None
          end
        end);
  ret (Some s, None)
  end
  end
  end.

Definition Put (s : Storage W) (key value : string) : IO W (option error) :=
  let v := {| put_Data := {[ key := value ]} |} in
  let '(body, err) := json_Marshal Marshal_putDocument v in
  match err with
  | Some err =>
    ret (Some (microerror.Maskf err "marshaling %#v"
                  [ArgJSON (Marshal_putDocument v)]))
  | None =>
    '(_, err) ←$ call (kubernetes.Patch (k8sClient s) MergePatchType
                        (tpoEndpoint s) body);
    match err with
    | Some err =>
      ret (Some (microerror.Maskf err "putting key=%s, patch=%s"
                    [ArgString key; ArgJSON body]))
    | None => ret None
    end
  end.

Definition Create (s : Storage W) (key value : string)
  : IO W (option error) :=
  err ←$ Put s key value;
  (* The masked error is computed and dropped. *)
  let _ := match err with
           | Some _ => microerror.Mask err
           | None => None
           end in
  ret None.

Definition getData (s : Storage W)
  : IO W (gmap string string * option error) :=
  '(res, err) ←$ call (kubernetes.Get (k8sClient s) (tpoEndpoint s));
  match err with
  | Some err => ret (∅, Some (microerror.Maskf err "get TPO" []))
  | None =>
    let '(v, err) := json_Unmarshal res in
    match err with
    | Some err => ret (∅, Some (microerror.Maskf err "unmarshal TPO" []))
    | None => ret (Data v, None)
    end
  end.

Definition Exists (s : Storage W) (key : string)
  : IO W (bool * option error) :=
  '(data, err) ←$ getData s;
  match err with
  | Some err =>
    ret (false, Some (microerror.Maskf err "checking existence key=%s"
                         [ArgString key]))
  | None =>
    match data !! key with
    | Some _ => ret (true, None)
    | None => ret (false, None)
    end
  end.

Definition Search (s : Storage W) (key : string)
  : IO W (string * option error) :=
  '(data, err) ←$ getData s;
  match err with
  | Some err =>
    ret ("", Some (microerror.Maskf err "searching for key=%s"
                      [ArgString key]))
  | None =>
    match data !! key with
    | None =>
      ret ("", Some (microerror.Maskf (errorOf notFoundError)
                        "searching for key=%s" [ArgString key]))
    | Some v => ret (v, None)
    end
  end.

Definition List (s : Storage W) (key : string)
  : IO W (Go.outcome (list string * option error)) :=
  '(data, err) ←$ getData s;
  match err with
  | Some err =>
    ret (Go.Returned ([], Some (microerror.Maskf err "listing key=%s"
                                   [ArgString key])))
  | None =>
    ret (lst ←! List_range key (range_keys data) [];
          Go.Returned (lst, None))
  end.

Definition Delete (s : Storage W) (key : string) : IO W (option error) :=
  let v := {| delete_Data := {[ key := None ]} |} in
  let '(body, err) := json_Marshal Marshal_deleteDocument v in
  match err with
  | Some err =>
    ret (Some (microerror.Maskf err "marshaling %#v"
                  [ArgJSON (Marshal_deleteDocument v)]))
  | None =>
    '(_, err) ←$ call (kubernetes.Patch (k8sClient s) MergePatchType
                        (tpoEndpoint s) body);
    match err with
    | Some err =>
      ret (Some (microerror.Maskf err "deleting value for key=%s, patch=%s"
                    [ArgString key; ArgJSON body]))
    | None => ret None
    end
  end.

End Methods.

(** ** The legacy variant of the package

    The older copy of the package hard-codes the namespace and the object
    name, and its [Search] reads the map without looking at the presence
    flag. *)

Module Legacy.

Definition customObjectName : string := "storage".
Definition namespace : string := "pawel".

Section Methods.

Context {W : Type}.

Definition getData (s : Storage W)
  : IO W (gmap string string * option error) :=
  '(res, err) ←$ call (kubernetes.Get (k8sClient s)
                         (tpr.Endpoint (tpr_ s) namespace
                          +:+ "/" +:+ customObjectName));
  match err with
  | Some err => ret (∅, Some (microerror.Maskf err "get TPO" []))
  | None =>
    let '(v, err) := json_Unmarshal res in
    match err with
    | Some err => ret (∅, Some (microerror.Maskf err "unmarshal TPO" []))
    | None => ret (Data v, None)
    end
  end.

Definition Search (s : Storage W) (key : string)
  : IO W (string * option error) :=
  '(data, err) ←$ getData s;
  match err with
  | Some err => ret ("", Some (microerror.Maskf err "Exists" []))
  | None => ret (default "" (data !! key), None)
  end.

End Methods.

(** *** The rest of the legacy variant

    Its [Config] names the resource only.  Its [Storage] has the fields
    [logger], [logctx], [k8sClient] and [tpr]; it is read here as the
    record [Storage] with the two endpoint fields, which the legacy
    methods never look at, left empty. *)

Definition pathPrefix : string := "/data/".

Record Config (W : Type) := {
  K8sClient : option (kubernetes.Interface W);
  Logger : option micrologger.Logger;
  TPRName : string;
  TPRVersion : string;
  TPRDescription : string
}.
Arguments K8sClient {W}.
Arguments Logger {W}.
Arguments TPRName {W}.
Arguments TPRVersion {W}.
Arguments TPRDescription {W}.

Definition DefaultConfig {W} : Config W :=
  {| K8sClient := None;
     Logger := None;
     TPRName := "";
     TPRVersion := "";
     TPRDescription := "" |}.

Section Variant.

Context {W : Type}.

(** [tpr.New] of operatorkit. *)
Variable tpr_New : tpr.Config W → foreign + tpr.TPR W.

(** [s.log(v...)]: the line is [v] followed by the context of [s]. *)
Definition log (s : Storage W) (v : list string) : IO W unit :=
  let a := (v ++ logctx s)%list in
  Log (logger s) a.

Definition New (config : Config W)
  : IO W (option (Storage W) * option error) :=
  match K8sClient config with
  | None => ret (None, Some (microerror.Maskf (errorOf invalidConfigError)
                                "config.K8sClient is nil" []))
  | Some config_K8sClient =>
  match Logger config with
  | None => ret (None, Some (microerror.Maskf (errorOf invalidConfigError)
                                "config.Logger is nil" []))
  | Some config_Logger =>
  if decide (TPRName config = "") then
    ret (None, Some (microerror.Maskf (errorOf invalidConfigError)
                       "config.TPRName is empty" []))
  else if decide (TPRVersion config = "") then
    ret (None, Some (microerror.Maskf (errorOf invalidConfigError)
                       "config.TPRVersion is empty" []))
  else
  let logctx_ := [ "tprName"; TPRName config;
                   "tprVersion"; TPRVersion config ] in
  let c := {| tpr.Logger := Some config_Logger;
              tpr.K8sClient := Some config_K8sClient;
              tpr.Name := TPRName config;
              tpr.Version := TPRVersion config;
              tpr.Description := TPRDescription config |} in
  match tpr_New c with
  | inl err => ret (None, microerror.Mask (Some (err : error)))
  | inr newTPR =>
  let s := {|
    k8sClient := config_K8sClient;
    tpr_ := newTPR;
    logger := config_Logger;
    logctx := logctx_;
    tpoEndpoint := "";
    tpoListEndpoint := "" |} in
  (* Create TPR resource. *)
  try! (err ←$ call (tpr.CreateAndWait (tpr_ s));
        if tpr_IsAlreadyExists err then
          _ ←$ log s ["debug"; "TPR already exists"]; ret None
        else match err with
        | Some err => ret (microerror.Mask (Some (err : error)))
        | None =>
          _ ←$ log s ["debug"; "TPR created"]; ret None
        end);
  (* Create namespace. *)
  try! (let ns := {| api.ObjectMeta := {|
                       apismeta.Name := namespace;
                       apismeta.Namespace := namespace;
                       apismeta.Annotations := ∅ |} |} in
        let ns_Name := apismeta.Name (api.ObjectMeta ns) in
        err ←$ call (kubernetes.Namespaces_Create (k8sClient s) ns);
        if errors_IsAlreadyExists err then
          _ ←$ log s ["debug"; "namespace " +:+ ns_Name +:+ " already exists"];
            ret None
        else match err with
        | Some err =>
          ret (Some (microerror.Maskf err "creating namespace %#v"
                        [ArgNamespace ns]))
        | None =>
          _ ←$ log s ["debug"; "namespace " +:+ ns_Name +:+ " created"];
            ret None
        end);
  (* Create TPO. *)
  try! (let tpo := {|
          TypeMeta := {| apismeta.Kind := tpr.Kind (tpr_ s);
                         apismeta.APIVersion := tpr.APIVersion (tpr_ s) |};
          ObjectMeta := {|
            apismeta.Name := customObjectName;
            apismeta.Namespace := namespace;
            apismeta.Annotations :=
              {[ "storageDoNotOmitempty" := "non-empty" ]} |};
          (* Data must be not empty so patches do not fail. *)
          Data := ∅ |} in
        let tpo_Name := apismeta.Name (ObjectMeta tpo) in
        let '(body, err) := json_Marshal Marshal_customObject tpo in
        match err with
        | Some err =>
          ret (Some (microerror.Maskf err "marshaling %#v" [ArgObject tpo]))
        | None =>
          '(_, err) ←$ call (kubernetes.Post (k8sClient s)
                               (tpr.Endpoint (tpr_ s) namespace) body);
          if errors_IsAlreadyExists err then
            _ ←$ log s ["debug"; "TPO " +:+ tpo_Name +:+ " already exists"];
              ret None
          else match err with
          | Some err =>
            ret (Some (microerror.Maskf err "creating TPO %#v" [ArgObject tpo]))
          | None =>
            _ ←$ log s ["debug"; "TPO " +:+ tpo_Name +:+ " created"];
              ret None
          end
        end);
  ret (Some s, None)
  end
  end
  end.

Definition Put (s : Storage W) (key value : string) : IO W (option error) :=
  let v := {| put_Data := {[ key := value ]} |} in
  let '(body, err) := json_Marshal Marshal_putDocument v in
  match err with
  | Some err =>
    ret (Some (microerror.Maskf err "marshaling %#v"
                  [ArgJSON (Marshal_putDocument v)]))
  | None =>
    '(_, err) ←$ call (kubernetes.Patch (k8sClient s) MergePatchType
                         (tpr.Endpoint (tpr_ s) namespace
                          +:+ "/" +:+ customObjectName) body);
    match err with
    | Some err =>
      ret (Some (microerror.Maskf err "creating value for key=%s, patch=%s"
                    [ArgString key; ArgJSON body]))
    | None => ret None
    end
  end.

Definition Create (s : Storage W) (key value : string)
  : IO W (option error) :=
  err ←$ Put s key value;
  (* The masked error is computed and dropped. *)
  let _ := match err with
           | Some _ => microerror.Mask err
           | None => None
           end in
  ret None.

Definition Exists (s : Storage W) (key : string)
  : IO W (bool * option error) :=
  '(data, err) ←$ getData s;
  match err with
  | Some err => ret (false, Some (microerror.Maskf err "Exists" []))
  | None =>
    match data !! key with
    | Some _ => ret (true, None)
    | None => ret (false, None)
    end
  end.

End Variant.

End Legacy.

(** ** A cluster that applies merge patches

    The API server is no part of the package.  What the package relies on
    is written down here as a small cluster: registered third party
    resources, namespaces, and the stored objects by item path.  A merge
    patch is applied as RFC 7386 says; the patched document has to decode
    as a [customObject] again, otherwise the patch is refused. *)

Definition apply_field (t : option json)
    (p : option (option json → option json)) : option json :=
  match p with
  | None => t
  | Some f => f t
  end.

(** RFC 7386, [MergePatch(Target, Patch)]: a patch that is an object is
    merged member by member into the target (taken as the empty object when
    it is none), a [null] member removes the member of that name, every
    other member is merged recursively; a patch that is no object replaces
    the target. *)
Fixpoint MergePatch (patch target : json) {struct patch} : json :=
  match patch with
  | JObject pf =>
      JObject (merge apply_field (fields_of target)
        ((λ pv, match pv with
                | JNull => λ _, None
                | _ => λ t, Some (MergePatch pv (default JNull t))
                end) <$> pf))
  | _ => patch
  end.

(** The treatment of one member of an object patch. *)
Definition member_patch (pv : json) : option json → option json :=
  match pv with
  | JNull => λ _, None
  | _ => λ t, Some (MergePatch pv (default JNull t))
  end.

Module fake.

Record Cluster := {
  thirdPartyResources : gset string;
  namespaces : gset string;
  objects : gmap string customObject
}.

Definition empty : Cluster :=
  {| thirdPartyResources := ∅; namespaces := ∅; objects := ∅ |}.

Definition failed {A} (w : Cluster) (zero : A) (r : StatusReason)
  : Cluster * (A * option foreign) :=
  (w, (zero, Some (StatusError r))).

Definition Namespaces_Create (ns : api.Namespace) (w : Cluster)
  : Cluster * option foreign :=
  let name := apismeta.Name (api.ObjectMeta ns) in
  if decide (name ∈ namespaces w)
  then (w, Some (StatusError StatusReasonAlreadyExists))
  else ({| thirdPartyResources := thirdPartyResources w;
           namespaces := {[ name ]} ∪ namespaces w;
           objects := objects w |}, None).

(** POST on a collection: the object must decode, its kind must be
    registered and its namespace must exist; it is stored under the
    collection path followed by its name unless one is there already. *)
Definition Post (path : string) (body : json) (w : Cluster)
  : Cluster * (json * option foreign) :=
  match decode_customObject body with
  | None => failed w JNull StatusReasonBadRequest
  | Some o =>
    if decide (apismeta.Kind (TypeMeta o) ∈ thirdPartyResources w
               ∧ apismeta.Namespace (ObjectMeta o) ∈ namespaces w)
    then
      let item := path +:+ "/" +:+ apismeta.Name (ObjectMeta o) in
      match objects w !! item with
      | Some _ => failed w JNull StatusReasonAlreadyExists
      | None =>
        ({| thirdPartyResources := thirdPartyResources w;
            namespaces := namespaces w;
            objects := <[item := o]> (objects w) |},
         (Marshal_customObject o, None))
      end
    else failed w JNull StatusReasonNotFound
  end.

(** PATCH on an item: only merge patches are understood. *)
Definition Patch (pt : PatchType) (path : string) (body : json) (w : Cluster)
  : Cluster * (json * option foreign) :=
  match pt with
  | MergePatchType =>
    match objects w !! path with
    | None => failed w JNull StatusReasonNotFound
    | Some o =>
      match decode_customObject (MergePatch body (Marshal_customObject o)) with
      | None => failed w JNull StatusReasonInvalid
      | Some o' =>
        ({| thirdPartyResources := thirdPartyResources w;
            namespaces := namespaces w;
            objects := <[path := o']> (objects w) |},
         (Marshal_customObject o', None))
      end
    end
  | _ => failed w JNull StatusReasonUnsupportedMediaType
  end.

Definition Get (path : string) (w : Cluster)
  : Cluster * (json * option foreign) :=
  match objects w !! path with
  | None => failed w JNull StatusReasonNotFound
  | Some o => (w, (Marshal_customObject o, None))
  end.

Definition client : kubernetes.Interface Cluster :=
  {| kubernetes.Namespaces_Create := Namespaces_Create;
     kubernetes.Post := Post;
     kubernetes.Patch := Patch;
     kubernetes.Get := Get |}.

(** The resource [name] at [version]: its kind is its name and its
    endpoints are laid out by name, version and namespace. *)
Definition resource (name version : string) : tpr.TPR Cluster :=
  {| tpr.CreateAndWait := λ w,
       if decide (name ∈ thirdPartyResources w)
       then (w, Some tprAlreadyExistsError)
       else ({| thirdPartyResources := {[ name ]} ∪ thirdPartyResources w;
                namespaces := namespaces w;
                objects := objects w |}, None);
     tpr.Endpoint := λ ns,
       "/apis/" +:+ name +:+ "/" +:+ version +:+ "/namespaces/" +:+ ns;
     tpr.Kind := name;
     tpr.APIVersion := name +:+ "/" +:+ version |}.

(** [tpr.New]: refuses a configuration without client, logger, name or
    version. *)
Definition tpr_New (c : tpr.Config Cluster) : foreign + tpr.TPR Cluster :=
  match tpr.K8sClient c, tpr.Logger c with
  | Some _, Some _ =>
    if decide (tpr.Name c = "" ∨ tpr.Version c = "")
    then inl tprInvalidConfigError
    else inr (resource (tpr.Name c) (tpr.Version c))
  | _, _ => inl tprInvalidConfigError
  end.

(** One admissible order for a [range] over a map. *)
Definition range_keys (m : gmap string string) : list string :=
  (map_to_list m).*1.

(** A [Storage] whose client is this cluster's. *)
Definition connected (s : Storage Cluster) : Prop :=
  k8sClient s = client.

(** The data map of the object stored at [path], if there is one. *)
Definition stored (w : Cluster) (path : string)
  : option (gmap string string) :=
  Data <$> objects w !! path.

(** The value under [k] in the data map of the object stored at [path]. *)
Definition value (w : Cluster) (path k : string) : option string :=
  stored w path ≫= λ d, d !! k.

End fake.

Definition start {W} (w : W) : env W := {| cluster := w; logged := [] |}.

(** The object [o] with the data map [d]. *)
Definition with_Data (o : customObject) (d : gmap string string)
  : customObject :=
  {| TypeMeta := TypeMeta o; ObjectMeta := ObjectMeta o; Data := d |}.

(** The state [e] with object [o] stored at [path]. *)
Definition store (e : env fake.Cluster) (path : string) (o : customObject)
  : env fake.Cluster :=
  {| cluster := {| fake.thirdPartyResources := fake.thirdPartyResources (cluster e);
                   fake.namespaces := fake.namespaces (cluster e);
                   fake.objects := <[path := o]> (fake.objects (cluster e)) |};
     logged := logged e |}.

(** *** The parts of a bootstrap, named

    What [New] builds from a configuration that has its client [k8s], its
    logger [lg] and, from [tpr.New], the resource [t]. *)

Section Bootstrap.

Context {W : Type}.

Definition effective_namespace (config : Config W) : string :=
  if decide (TPOConfig.Namespace (TPO config) = "")
  then "default" else TPOConfig.Namespace (TPO config).

Definition tpr_config (config : Config W) (k8s : kubernetes.Interface W)
    (lg : micrologger.Logger) : tpr.Config W :=
  {| tpr.Logger := Some lg;
     tpr.K8sClient := Some k8s;
     tpr.Name := TPRConfig.Name (TPR config);
     tpr.Version := TPRConfig.Version (TPR config);
     tpr.Description := TPRConfig.Description (TPR config) |}.

Definition storage_for (config : Config W) (k8s : kubernetes.Interface W)
    (lg : micrologger.Logger) (t : tpr.TPR W) : Storage W :=
  {| k8sClient := k8s;
     tpr_ := t;
     tpoEndpoint := tpr.Endpoint t (effective_namespace config)
                    +:+ "/" +:+ TPOConfig.Name (TPO config);
     tpoListEndpoint := tpr.Endpoint t (effective_namespace config);
     logger := micrologger.With lg
       [ "tprName"; TPRConfig.Name (TPR config);
         "tprVersion"; TPRConfig.Version (TPR config);
         "tpoName"; TPOConfig.Name (TPO config);
         "tpoNamespace"; effective_namespace config ];
     logctx := [] |}.

Definition namespace_object (config : Config W) : api.Namespace :=
  {| api.ObjectMeta := {|
       apismeta.Name := effective_namespace config;
       apismeta.Namespace := effective_namespace config;
       apismeta.Annotations := ∅ |} |}.

Definition backing_object (config : Config W) (t : tpr.TPR W)
  : customObject :=
  {| TypeMeta := {| apismeta.Kind := tpr.Kind t;
                    apismeta.APIVersion := tpr.APIVersion t |};
     ObjectMeta := {|
       apismeta.Name := TPOConfig.Name (TPO config);
       apismeta.Namespace := effective_namespace config;
       apismeta.Annotations := {[ "storageDoNotOmitempty" := "non-empty" ]} |};
     Data := ∅ |}.

(** The answer of a provisioning step lets [New] go on: no error, or
    the error that says the thing exists already. *)
Definition goes_on (isAlreadyExists : option foreign → bool)
    (err : option foreign) : bool :=
  isAlreadyExists err || bool_decide (err = None).

(** The line a step logs when [New] goes on after it. *)
Definition step_line (lg : micrologger.Logger) (what : string)
    (alreadyExists : bool) : list string :=
  (["debug"; what +:+ (if alreadyExists then " already exists" else " created")]
     ++ micrologger.context lg)%list.

End Bootstrap.

(** The cluster holds everything a bootstrap with [config] provides: the
    resource, the namespace and the backing object. *)
Definition provisioned (w : fake.Cluster) (config : Config fake.Cluster)
  : Prop :=
  let t := fake.resource (TPRConfig.Name (TPR config))
                         (TPRConfig.Version (TPR config)) in
  TPRConfig.Name (TPR config) ∈ fake.thirdPartyResources w
  ∧ effective_namespace config ∈ fake.namespaces w
  ∧ is_Some (fake.objects w !!
               (tpr.Endpoint t (effective_namespace config)
                +:+ "/" +:+ TPOConfig.Name (TPO config))).

(** *** The parts of a legacy bootstrap, named *)

Section LegacyBootstrap.

Context {W : Type}.

Definition legacy_tpr_config (config : Legacy.Config W)
    (k8s : kubernetes.Interface W) (lg : micrologger.Logger) : tpr.Config W :=
  {| tpr.Logger := Some lg;
     tpr.K8sClient := Some k8s;
     tpr.Name := Legacy.TPRName config;
     tpr.Version := Legacy.TPRVersion config;
     tpr.Description := Legacy.TPRDescription config |}.

Definition legacy_storage_for (config : Legacy.Config W)
    (k8s : kubernetes.Interface W) (lg : micrologger.Logger) (t : tpr.TPR W)
  : Storage W :=
  {| k8sClient := k8s;
     tpr_ := t;
     logger := lg;
     logctx := [ "tprName"; Legacy.TPRName config;
                 "tprVersion"; Legacy.TPRVersion config ];
     tpoEndpoint := "";
     tpoListEndpoint := "" |}.

Definition legacy_namespace_object : api.Namespace :=
  {| api.ObjectMeta := {|
       apismeta.Name := Legacy.namespace;
       apismeta.Namespace := Legacy.namespace;
       apismeta.Annotations := ∅ |} |}.

Definition legacy_backing_object (t : tpr.TPR W) : customObject :=
  {| TypeMeta := {| apismeta.Kind := tpr.Kind t;
                    apismeta.APIVersion := tpr.APIVersion t |};
     ObjectMeta := {|
       apismeta.Name := Legacy.customObjectName;
       apismeta.Namespace := Legacy.namespace;
       apismeta.Annotations := {[ "storageDoNotOmitempty" := "non-empty" ]} |};
     Data := ∅ |}.

(** The item endpoint every legacy method addresses. *)
Definition legacy_endpoint (s : Storage W) : string :=
  tpr.Endpoint (tpr_ s) Legacy.namespace +:+ "/" +:+ Legacy.customObjectName.

(** The line a step of the legacy bootstrap logs when it goes on. *)
Definition legacy_step_line (s : Storage W) (what : string)
    (alreadyExists : bool) : list string :=
  ((["debug"; what +:+ (if alreadyExists then " already exists" else " created")]
      ++ logctx s) ++ micrologger.context (logger s))%list.

End LegacyBootstrap.

(** One merge patch with body [body] sent to the item endpoint of [s]; an
    error comes back masked with the message [context] about [key]. *)
Definition merge_patch_request {W} (s : Storage W) (body : json)
    (context key : string) : IO W (option error) :=
  '(_, err) ←$ call (kubernetes.Patch (k8sClient s) MergePatchType
                       (tpoEndpoint s) body);
  ret ((λ err : foreign,
          microerror.Maskf err context [ArgString key; ArgJSON body]) <$> err).

(** ** A storage to run the methods on *)

Module demo.

Definition config : Config fake.Cluster :=
  {| K8sClient := Some fake.client;
     Logger := Some {| micrologger.context := [] |};
     TPR := {| TPRConfig.Name := "tpr-storage.giantswarm.io";
               TPRConfig.Version := "v1";
               TPRConfig.Description := "" |};
     TPO := {| TPOConfig.Name := "demo"; TPOConfig.Namespace := "" |} |}.

(** The [Storage] that [New] returns for [config]. *)
Definition storage : Storage fake.Cluster :=
  let t := fake.resource "tpr-storage.giantswarm.io" "v1" in
  {| logger := {| micrologger.context :=
                    [ "tprName"; "tpr-storage.giantswarm.io";
                      "tprVersion"; "v1";
                      "tpoName"; "demo";
                      "tpoNamespace"; "default" ] |};
     logctx := [];
     k8sClient := fake.client;
     tpr_ := t;
     tpoEndpoint := tpr.Endpoint t "default" +:+ "/demo";
     tpoListEndpoint := tpr.Endpoint t "default" |}.

(** The state after [New] has run once on an empty cluster. *)
Definition booted : env fake.Cluster :=
  (New fake.tpr_New config (start fake.empty)).1.

(** The store used as an example by the specification. *)
Definition foo_data : gmap string string :=
  {[ "/foo" := "a"; "/foo/bar" := "b"; "/foobar" := "c" ]}.

Definition foo_object : customObject :=
  {| TypeMeta := {| apismeta.Kind := "tpr-storage.giantswarm.io";
                    apismeta.APIVersion := "tpr-storage.giantswarm.io/v1" |};
     ObjectMeta := {| apismeta.Name := "demo";
                      apismeta.Namespace := "default";
                      apismeta.Annotations :=
                        {[ "storageDoNotOmitempty" := "non-empty" ]} |};
     Data := foo_data |}.

Definition foo_store : env fake.Cluster :=
  store booted (tpoEndpoint storage) foo_object.

End demo.

(** ** A legacy storage to run the methods on *)

Module legacy_demo.

Definition config : Legacy.Config fake.Cluster :=
  {| Legacy.K8sClient := Some fake.client;
     Legacy.Logger := Some {| micrologger.context := [] |};
     Legacy.TPRName := "tpr-storage.giantswarm.io";
     Legacy.TPRVersion := "v1";
     Legacy.TPRDescription := "" |}.

(** The [Storage] that the legacy [New] returns for [config]. *)
Definition storage : Storage fake.Cluster :=
  legacy_storage_for config fake.client {| micrologger.context := [] |}
    (fake.resource "tpr-storage.giantswarm.io" "v1").

(** The state after the legacy [New] has run once on an empty cluster. *)
Definition booted : env fake.Cluster :=
  (Legacy.New fake.tpr_New config (start fake.empty)).1.

(** A [Storage] of the current variant for the object the legacy variant
    hard-codes. *)
Definition twin : Storage fake.Cluster :=
  let t := fake.resource "tpr-storage.giantswarm.io" "v1" in
  {| logger := {| micrologger.context := [] |};
     logctx := [];
     k8sClient := fake.client;
     tpr_ := t;
     tpoEndpoint := tpr.Endpoint t "pawel" +:+ "/storage";
     tpoListEndpoint := tpr.Endpoint t "pawel" |}.

End legacy_demo.

(** ** What the specification says [List] computes

    The rule in the words of the specification: a key is selected when it
    equals the prefix or starts with the prefix followed by a slash, and a
    selected key contributes what is left of it after the prefix and the
    slash. *)

Definition selected (keyPrefix k : string) : bool :=
  bool_decide (k = keyPrefix) || Go.HasPrefix k (keyPrefix +:+ "/").

Definition remainder (keyPrefix k : string) : string :=
  String.substring (Go.len keyPrefix + 1)
                   (Go.len k - (Go.len keyPrefix + 1)) k.

Definition List_spec (keyPrefix : string) (ks : list string) : list string :=
  remainder keyPrefix <$> filter (λ k, selected keyPrefix k = true) ks.

(** * Properties *)

(** ** Strings *)

Section Strings.

Implicit Types p r s : string.

Lemma app_String a p r : String a p +:+ r = String a (p +:+ r).
Proof. reflexivity. Qed.

Lemma prefix_split p s : String.prefix p s = true → ∃ r, s = p +:+ r.
Proof.
  revert s. induction p as [|a p IH]; intros s H.
  - by exists s.
  - destruct s as [|b s]; [done|]. simpl in H.
    destruct (Ascii.ascii_dec a b) as [->|]; [|done].
    destruct (IH _ H) as [r ->]. by exists r.
Qed.

Lemma prefix_app p r : String.prefix p (p +:+ r) = true.
Proof.
  induction p as [|a p IH]; simpl; [by destruct r|].
  by destruct (Ascii.ascii_dec a a).
Qed.

Lemma prefix_app_inv p r s :
  String.prefix (p +:+ r) (p +:+ s) = String.prefix r s.
Proof.
  induction p as [|a p IH]; simpl; [done|].
  by destruct (Ascii.ascii_dec a a).
Qed.

Lemma len_app p r : Go.len (p +:+ r) = Go.len p + Go.len r.
Proof. unfold Go.len. induction p as [|a p IH]; simpl; [done|by rewrite IH]. Qed.

Lemma get_app_r p r n : String.get (Go.len p + n) (p +:+ r) = String.get n r.
Proof. induction p; simpl; done. Qed.

Lemma substring_app_r p r n m :
  String.substring (Go.len p + n) m (p +:+ r) = String.substring n m r.
Proof. induction p; simpl; done. Qed.

Lemma substring_whole s : String.substring 0 (Go.len s) s = s.
Proof. unfold Go.len. induction s as [|a s IH]; simpl; [done|by rewrite IH]. Qed.

Lemma app_empty_r p : p +:+ "" = p.
Proof. induction p as [|a p IH]; [done|by rewrite app_String, IH]. Qed.

Lemma prefix_refl p : String.prefix p p = true.
Proof. rewrite <-(app_empty_r p) at 2. apply prefix_app. Qed.

Lemma app_assoc_str p r s : (p +:+ r) +:+ s = p +:+ (r +:+ s).
Proof. induction p as [|a p IH]; [done|by rewrite !app_String, IH]. Qed.

Lemma app_cancel_empty p r : p +:+ r = p → r = "".
Proof.
  intros H. apply (f_equal Go.len) in H. rewrite len_app in H.
  destruct r; [done|]. unfold Go.len in H. simpl in H. lia.
Qed.

End Strings.

(** ** The loop of [List] *)

Section ListLoop.

Implicit Types key k : string.
Implicit Types ks lst : list string.

(** One turn of the loop, by the three kinds of key: the prefix itself,
    a key under the prefix, any other key. *)
Lemma List_range_cons key k ks lst :
  List_range key (k :: ks) lst =
    if bool_decide (k = key) then Go.Panicked "slice bounds out of range"
    else if Go.HasPrefix k (key +:+ "/")
         then List_range key ks (lst ++ [remainder key k])
         else List_range key ks lst.
Proof.
  cbn [List_range]. unfold Go.HasPrefix.
  destruct (String.prefix key k) eqn:Hp; cbn [negb].
  - destruct (prefix_split _ _ Hp) as [r ->].
    rewrite prefix_app_inv, len_app.
    destruct r as [|c r].
    + rewrite app_empty_r, bool_decide_eq_true_2 by done.
      rewrite decide_False by (unfold Go.len; simpl; lia).
      cbn [Go.bind]. unfold Go.slice_from.
      rewrite decide_False by lia. done.
    + rewrite bool_decide_eq_false_2
        by (intros H; by apply app_cancel_empty in H).
      rewrite decide_True by (unfold Go.len; simpl; lia).
      unfold Go.index. replace (Go.len key) with (Go.len key + 0) at 1 by lia.
      rewrite get_app_r. cbn [String.get Go.bind].
      cbn [String.prefix].
      destruct (Ascii.ascii_dec "/" c) as [<-|Hc].
      * rewrite bool_decide_eq_false_2 by (intros H; by apply H).
        unfold Go.slice_from. rewrite len_app.
        rewrite decide_True by (unfold Go.len; simpl; lia).
        cbn [Go.bind]. unfold remainder. rewrite len_app.
        rewrite !substring_app_r.
        replace (Go.len key + Go.len (String "/" r) - (Go.len key + 1))
          with (Go.len r) by (unfold Go.len; simpl; lia).
        by destruct r.
      * rewrite bool_decide_eq_true_2 by congruence. done.
  - rewrite bool_decide_eq_false_2.
    2:{ intros ->. by rewrite prefix_refl in Hp. }
    destruct (String.prefix (key +:+ "/") k) eqn:Hq; [|done].
    destruct (prefix_split _ _ Hq) as [r ->].
    rewrite app_assoc_str, prefix_app in Hp. done.
Qed.

(** A key equal to the prefix stops the loop with a panic, wherever it
    comes in the order of the range. *)
Lemma List_range_exact_match key ks lst :
  key ∈ ks →
  List_range key ks lst = Go.Panicked "slice bounds out of range".
Proof.
  revert lst. induction ks as [|k ks IH]; intros lst Hin.
  - by apply elem_of_nil in Hin.
  - rewrite List_range_cons. case_bool_decide as Hk; [done|].
    apply elem_of_cons in Hin as [->|Hin]; [done|].
    destruct (Go.HasPrefix _ _); by apply IH.
Qed.

Lemma List_spec_cons key k ks :
  List_spec key (k :: ks) =
    if selected key k then remainder key k :: List_spec key ks
    else List_spec key ks.
Proof.
  unfold List_spec. cbn [filter list_filter].
  destruct (selected key k); [by rewrite decide_True|by rewrite decide_False].
Qed.

(** Without such a key the loop returns what the specification says. *)
Lemma List_range_no_exact_match key ks lst :
  key ∉ ks →
  List_range key ks lst = Go.Returned (lst ++ List_spec key ks)%list.
Proof.
  revert lst. induction ks as [|k ks IH]; intros lst Hin.
  - unfold List_spec. simpl. by rewrite app_nil_r.
  - rewrite List_range_cons, List_spec_cons.
    apply not_elem_of_cons in Hin as [Hk Hin].
    rewrite bool_decide_eq_false_2 by done.
    unfold selected. rewrite bool_decide_eq_false_2 by done. cbn [orb].
    destruct (Go.HasPrefix k (key +:+ "/")) eqn:Hp.
    + rewrite IH by done. by rewrite <-app_assoc.
    + by apply IH.
Qed.

End ListLoop.

(** ** JSON: encoding, decoding and merge patches *)

(** Reads the next member of an object literal whose names are known. *)
Ltac read_member :=
  repeat (rewrite lookup_insert_ne by done);
  first [rewrite lookup_insert_eq | rewrite lookup_singleton_eq];
  cbn [decode_string mbind option_bind].

Section Json.

Implicit Types m d : gmap string string.
Implicit Types o : customObject.

Lemma MergePatch_object pf t :
  MergePatch (JObject pf) t
  = JObject (merge apply_field (fields_of t) (member_patch <$> pf)).
Proof. reflexivity. Qed.

Lemma MergePatch_lookup pf t i :
  fields_of (MergePatch (JObject pf) t) !! i
  = match pf !! i with
    | None => fields_of t !! i
    | Some pv => member_patch pv (fields_of t !! i)
    end.
Proof.
  rewrite MergePatch_object. cbn [fields_of].
  rewrite lookup_merge, lookup_fmap.
  destruct (pf !! i) as [pv|], (fields_of t !! i); done.
Qed.

Lemma member_patch_value pv t :
  pv ≠ JNull → member_patch pv (Some t) = Some (MergePatch pv t).
Proof. by destruct pv. Qed.

(** Decoding undoes encoding. *)
Lemma decode_strings_Marshal m :
  decode_strings (Some (Marshal_strings m)) = Some m.
Proof.
  unfold decode_strings, Marshal_strings.
  rewrite decide_True.
  - f_equal. apply map_eq. intros i. rewrite !lookup_fmap.
    by destruct (m !! i).
  - intros i j. rewrite lookup_fmap.
    destruct (m !! i); intros; simplify_eq/=; eauto.
Qed.

Lemma decode_ObjectMeta_Marshal (om : apismeta.ObjectMeta) :
  decode_ObjectMeta (Some (Marshal_ObjectMeta om)) = Some om.
Proof.
  destruct om as [name ns ann].
  unfold decode_ObjectMeta, Marshal_ObjectMeta. cbn [apismeta.Name
    apismeta.Namespace apismeta.Annotations].
  do 3 read_member.
  by rewrite decode_strings_Marshal.
Qed.

Lemma decode_customObject_Marshal o :
  decode_customObject (Marshal_customObject o) = Some o.
Proof.
  destruct o as [[kind apiVersion] om d].
  unfold decode_customObject, Marshal_customObject.
  cbn [TypeMeta ObjectMeta Data apismeta.Kind apismeta.APIVersion].
  do 3 read_member.
  rewrite decode_ObjectMeta_Marshal. cbn [mbind option_bind].
  read_member.
  by rewrite decode_strings_Marshal.
Qed.

(** A one-member patch on an encoded string map: a string sets the
    member, [null] removes it. *)
Lemma MergePatch_set m k v :
  MergePatch (JObject {[ k := JString v ]}) (Marshal_strings m)
  = Marshal_strings (<[k := v]> m).
Proof.
  rewrite MergePatch_object. unfold Marshal_strings. f_equal.
  apply map_eq. intros i. cbn [fields_of].
  rewrite lookup_merge, !lookup_fmap.
  destruct (decide (k = i)) as [->|Hne].
  - rewrite lookup_singleton_eq, lookup_insert_eq.
    by destruct (m !! i).
  - rewrite lookup_singleton_ne, lookup_insert_ne by done.
    by destruct (m !! i).
Qed.

Lemma MergePatch_remove m k :
  MergePatch (JObject {[ k := JNull ]}) (Marshal_strings m)
  = Marshal_strings (delete k m).
Proof.
  rewrite MergePatch_object. unfold Marshal_strings. f_equal.
  apply map_eq. intros i. cbn [fields_of].
  rewrite lookup_merge, !lookup_fmap.
  destruct (decide (k = i)) as [->|Hne].
  - rewrite lookup_singleton_eq, lookup_delete_eq.
    by destruct (m !! i).
  - rewrite lookup_singleton_ne, lookup_delete_ne by done.
    by destruct (m !! i).
Qed.

(** A patch that has only the member [data] touches only the data of
    an encoded object. *)
Lemma MergePatch_data o pd d :
  pd ≠ JNull →
  MergePatch pd (Marshal_strings (Data o)) = Marshal_strings d →
  MergePatch (JObject {[ "data" := pd ]}) (Marshal_customObject o)
  = Marshal_customObject (with_Data o d).
Proof.
  intros Hpd Hd. rewrite MergePatch_object.
  unfold Marshal_customObject, with_Data.
  cbn [fields_of TypeMeta ObjectMeta Data]. f_equal.
  apply map_eq. intros i. rewrite lookup_merge, lookup_fmap.
  destruct (decide (i = "data")) as [->|Hne].
  - rewrite lookup_singleton_eq.
    rewrite !lookup_insert_ne, !lookup_singleton_eq by done.
    cbn [fmap option_fmap option_map apply_field diag_None].
    by rewrite member_patch_value, Hd.
  - rewrite lookup_singleton_ne by done.
    cbn [fmap option_fmap option_map].
    repeat (rewrite (lookup_insert _ _ i); case_decide; [by subst|]).
    rewrite !lookup_singleton_ne by done. done.
Qed.

Lemma patch_Put o key value :
  decode_customObject
    (MergePatch (Marshal_putDocument {| put_Data := {[ key := value ]} |})
                (Marshal_customObject o))
  = Some (with_Data o (<[key := value]> (Data o))).
Proof.
  unfold Marshal_putDocument, Marshal_strings. cbn [put_Data].
  rewrite map_fmap_singleton.
  rewrite (MergePatch_data o _ (<[key := value]> (Data o)));
    [apply decode_customObject_Marshal|done|apply MergePatch_set].
Qed.

Lemma patch_Delete o key :
  decode_customObject
    (MergePatch (Marshal_deleteDocument {| delete_Data := {[ key := None ]} |})
                (Marshal_customObject o))
  = Some (with_Data o (delete key (Data o))).
Proof.
  unfold Marshal_deleteDocument, Marshal_pointers. cbn [delete_Data].
  rewrite map_fmap_singleton.
  rewrite (MergePatch_data o _ (delete key (Data o)));
    [apply decode_customObject_Marshal|done|apply MergePatch_remove].
Qed.

End Json.

(** ** The methods, for any client *)

Section AnyClient.

Context {W : Type}.
Implicit Types s : Storage W.
Implicit Types e : env W.

(** What [Put] sends: one merge patch to the item endpoint, its body the
    document with the single member [data] holding the single pair. *)
Lemma Put_request s key value e :
  Put s key value e =
    merge_patch_request s
      (JObject {[ "data" := JObject {[ key := JString value ]} ]})
      "putting key=%s, patch=%s" key e.
Proof.
  unfold Put, merge_patch_request, json_Marshal, Marshal_putDocument,
    Marshal_strings.
  cbn [put_Data]. rewrite map_fmap_singleton. unfold bind.
  destruct (call _ e) as [e' [res [err|]]]; done.
Qed.

(** What [Delete] sends: the same request with [null] for the key. *)
Lemma Delete_request s key e :
  Delete s key e =
    merge_patch_request s
      (JObject {[ "data" := JObject {[ key := JNull ]} ]})
      "deleting value for key=%s, patch=%s" key e.
Proof.
  unfold Delete, merge_patch_request, json_Marshal, Marshal_deleteDocument,
    Marshal_pointers.
  cbn [delete_Data]. rewrite map_fmap_singleton. unfold bind.
  destruct (call _ e) as [e' [res [err|]]]; done.
Qed.

(** [Create] ends in [return nil] whatever [Put] has answered. *)
Lemma Create_returns_nil s key value e :
  Create s key value e = ((Put s key value e).1, None).
Proof.
  unfold Create, bind. by destruct (Put s key value e) as [e' [err|]].
Qed.

(** An error of [getData] comes from the client or from the decoder. *)
Lemma getData_error s e e' data err :
  getData s e = (e', (data, Some err)) → ∃ f, Cause err = Foreign f.
Proof.
  unfold getData, bind, ret.
  destruct (call _ e) as [e1 [res [err1|]]].
  - intros [= <- <- <-]. by exists err1.
  - destruct (json_Unmarshal res) as [v [err2|]].
    + intros [= <- <- <-]. by exists err2.
    + intros [=].
Qed.

Lemma Search_run s key e :
  Search s key e =
    let '(e', (data, err)) := getData s e in
    match err with
    | Some err =>
      (e', ("", Some (microerror.Maskf err "searching for key=%s"
                        [ArgString key])))
    | None =>
      match data !! key with
      | Some v => (e', (v, None))
      | None =>
        (e', ("", Some (microerror.Maskf (errorOf notFoundError)
                          "searching for key=%s" [ArgString key])))
      end
    end.
Proof.
  unfold Search, bind, ret.
  destruct (getData s e) as [e' [data [err|]]]; [done|].
  by destruct (data !! key).
Qed.

Lemma Exists_run s key e :
  Exists s key e =
    let '(e', (data, err)) := getData s e in
    match err with
    | Some err =>
      (e', (false, Some (microerror.Maskf err "checking existence key=%s"
                           [ArgString key])))
    | None => (e', (bool_decide (is_Some (data !! key)), None))
    end.
Proof.
  unfold Exists, bind, ret.
  destruct (getData s e) as [e' [data [err|]]]; [done|].
  destruct (data !! key) eqn:Hk.
  - by rewrite bool_decide_eq_true_2.
  - rewrite bool_decide_eq_false_2; [done|]. by intros [? ?].
Qed.

Lemma List_run range_keys s key e :
  List range_keys s key e =
    let '(e', (data, err)) := getData s e in
    match err with
    | Some err =>
      (e', Go.Returned ([], Some (microerror.Maskf err "listing key=%s"
                                    [ArgString key])))
    | None =>
      (e', lst ←! List_range key (range_keys data) [];
           Go.Returned (lst, None))
    end.
Proof.
  unfold List, bind, ret.
  by destruct (getData s e) as [e' [data [err|]]].
Qed.

(** The legacy [Search] answers a missing key with the empty string
    and no error. *)
Lemma Legacy_Search_absent_key s key e e' data :
  Legacy.getData s e = (e', (data, None)) →
  data !! key = None →
  Legacy.Search s key e = (e', ("", None)).
Proof.
  intros Hget Hk. unfold Legacy.Search, bind, ret.
  by rewrite Hget, Hk.
Qed.

End AnyClient.

(** ** The methods, on the cluster that applies merge patches *)

Section Connected.

Variable s : Storage fake.Cluster.
Hypothesis connected_s : fake.connected s.

Implicit Types e : env fake.Cluster.


Lemma getData_connected e :
  getData s e =
    match fake.objects (cluster e) !! tpoEndpoint s with
    | Some o => (e, (Data o, None))
    | None =>
      (e, (∅, Some (microerror.Maskf (StatusError StatusReasonNotFound)
                      "get TPO" [])))
    end.
Proof.
  unfold getData, bind, call, ret. rewrite connected_s.
  cbn [kubernetes.Get fake.client]. unfold fake.Get, fake.failed.
  destruct e as [w lg]. cbn [cluster logged].
  destruct (fake.objects w !! tpoEndpoint s) as [o|]; [|done].
  unfold json_Unmarshal. by rewrite decode_customObject_Marshal.
Qed.

Lemma Put_connected key value e :
  Put s key value e =
    match fake.objects (cluster e) !! tpoEndpoint s with
    | Some o =>
      (store e (tpoEndpoint s) (with_Data o (<[key := value]> (Data o))),
       None)
    | None =>
      (e, Some (microerror.Maskf (StatusError StatusReasonNotFound)
                  "putting key=%s, patch=%s"
                  [ArgString key;
                   ArgJSON (Marshal_putDocument
                              {| put_Data := {[ key := value ]} |})]))
    end.
Proof.
  unfold Put, json_Marshal, bind, call, ret. rewrite connected_s.
  cbn [kubernetes.Patch fake.client]. unfold fake.Patch, fake.failed.
  destruct e as [w lg]. cbn [cluster logged].
  destruct (fake.objects w !! tpoEndpoint s) as [o|]; [|done].
  by rewrite patch_Put.
Qed.

Lemma Delete_connected key e :
  Delete s key e =
    match fake.objects (cluster e) !! tpoEndpoint s with
    | Some o =>
      (store e (tpoEndpoint s) (with_Data o (delete key (Data o))), None)
    | None =>
      (e, Some (microerror.Maskf (StatusError StatusReasonNotFound)
                  "deleting value for key=%s, patch=%s"
                  [ArgString key;
                   ArgJSON (Marshal_deleteDocument
                              {| delete_Data := {[ key := None ]} |})]))
    end.
Proof.
  unfold Delete, json_Marshal, bind, call, ret. rewrite connected_s.
  cbn [kubernetes.Patch fake.client]. unfold fake.Patch, fake.failed.
  destruct e as [w lg]. cbn [cluster logged].
  destruct (fake.objects w !! tpoEndpoint s) as [o|]; [|done].
  by rewrite patch_Delete.
Qed.

Lemma stored_store e path o :
  fake.objects (cluster (store e path o)) !! path = Some o.
Proof. unfold store. cbn. apply lookup_insert_eq. Qed.

End Connected.

(** ** The key-value contract *)

(** C1 (fails on the code).  [Create] is meant to hand back what [Put]
    returns, but its last statement is [return nil]: on a cluster where the
    backing object is missing, [Put] reports the failure of the patch and
    [Create], on the same input, reports success. *)
Theorem Create_returns_nil_where_Put_fails :
  hasCause (Foreign (StatusError StatusReasonNotFound))
           (Put demo.storage "/k" "v" (start fake.empty)).2 = true
  ∧ (Create demo.storage "/k" "v" (start fake.empty)).2 = None.
Proof.
  rewrite Create_returns_nil, Put_connected by done. split; reflexivity.
Qed.

(** C4.  When the backing object has been fetched and decoded, [Search]
    returns the value stored under the key if the key is an entry of the
    data map, and otherwise fails with the package's not-found error, the
    returned string being empty; when the fetch or the decoding has failed,
    the error [Search] returns is not the not-found error. *)
Theorem Search_value_or_notFound {W} (s : Storage W) key e e' data err :
  getData s e = (e', (data, err)) →
  (err = None → ∀ v, data !! key = Some v →
     Search s key e = (e', (v, None)))
  ∧ (err = None → data !! key = None →
     ∃ nf, Search s key e = (e', ("", Some nf))
           ∧ IsNotFound (Some nf) = true)
  ∧ (∀ te, err = Some te →
     ∃ te', Search s key e = (e', ("", Some te'))
            ∧ Cause te' = Cause te ∧ IsNotFound (Some te') = false).
Proof.
  intros Hget. rewrite Search_run, Hget. split; [|split].
  - intros -> v Hv. by rewrite Hv.
  - intros -> Hk. rewrite Hk. eauto.
  - intros te ->. destruct (getData_error _ _ _ _ _ Hget) as [f Hf].
    eexists. split; [done|]. split; [done|].
    unfold IsNotFound, hasCause. cbn [microerror.Maskf Cause].
    rewrite Hf. done.
Qed.

Lemma Search_value_or_notFound_witness :
  Search demo.storage "/foo/bar" demo.foo_store
  = (demo.foo_store, ("b", None)).
Proof.
  apply (proj1 (Search_value_or_notFound demo.storage "/foo/bar"
                  demo.foo_store demo.foo_store demo.foo_data None
                  ltac:(vm_compute; reflexivity))
               eq_refl "b" ltac:(vm_compute; reflexivity)).
Defined.





(** C7.  On the cluster that applies merge patches: for a key that is in
    the stored data map, when [Delete key] has succeeded, [Exists key] on
    the state it leaves returns false and [Search key] fails with the
    not-found error. *)
Theorem Delete_then_Exists_and_Search
    (s : Storage fake.Cluster) key e e' d :
  fake.connected s →
  fake.stored (cluster e) (tpoEndpoint s) = Some d →
  is_Some (d !! key) →
  Delete s key e = (e', None) →
  Exists s key e' = (e', (false, None))
  ∧ ∃ nf, Search s key e' = (e', ("", Some nf))
          ∧ IsNotFound (Some nf) = true.
Proof.
  intros Hs Hd _. rewrite Delete_connected by done.
  destruct (fake.objects (cluster e) !! tpoEndpoint s) as [o|]; [|done].
  intros [= <-].
  rewrite Search_run, Exists_run, getData_connected by done.
  rewrite stored_store. cbn [with_Data Data].
  rewrite lookup_delete_eq. split.
  - rewrite bool_decide_eq_false_2; [done|]. by intros [? ?].
  - eauto.
Qed.

Lemma Delete_then_Exists_and_Search_witness :
  Exists demo.storage "/foo" (Delete demo.storage "/foo" demo.foo_store).1
  = ((Delete demo.storage "/foo" demo.foo_store).1, (false, None))
  ∧ ∃ nf, Search demo.storage "/foo"
            (Delete demo.storage "/foo" demo.foo_store).1
          = ((Delete demo.storage "/foo" demo.foo_store).1, ("", Some nf))
          ∧ IsNotFound (Some nf) = true.
Proof.
  apply (Delete_then_Exists_and_Search demo.storage "/foo" demo.foo_store
           (Delete demo.storage "/foo" demo.foo_store).1 demo.foo_data
           eq_refl).
  - vm_compute. reflexivity.
  - exists "a". vm_compute. reflexivity.
  - vm_compute. reflexivity.
Defined.



(** ** Bootstrap *)

Section NewRun.

Context {W : Type}.
Variable tpr_New : tpr.Config W → foreign + tpr.TPR W.

Implicit Types config : Config W.
Implicit Types e : env W.

Lemma goes_on_already_exists isAlreadyExists err :
  isAlreadyExists err = true → goes_on isAlreadyExists err = true.
Proof. unfold goes_on. by intros ->. Qed.

Lemma goes_on_error isAlreadyExists (f : foreign) :
  isAlreadyExists (Some f) = false →
  goes_on isAlreadyExists (Some f) = false.
Proof. unfold goes_on. intros ->. by rewrite bool_decide_eq_false_2. Qed.

Lemma goes_on_nil isAlreadyExists :
  goes_on isAlreadyExists None = true.
Proof.
  unfold goes_on. rewrite (bool_decide_eq_true_2 (None = None)) by done.
  by destruct (isAlreadyExists None).
Qed.

(** [New] on a complete configuration, step by step. *)
Lemma New_run config k8s lg t e :
  K8sClient config = Some k8s →
  Logger config = Some lg →
  TPRConfig.Name (TPR config) ≠ "" →
  TPRConfig.Version (TPR config) ≠ "" →
  TPOConfig.Name (TPO config) ≠ "" →
  tpr_New (tpr_config config k8s lg) = inr t →
  let s := storage_for config k8s lg t in
  let r1 := tpr.CreateAndWait t (cluster e) in
  let r2 := kubernetes.Namespaces_Create k8s (namespace_object config) r1.1 in
  let r3 := kubernetes.Post k8s (tpoListEndpoint s)
              (Marshal_customObject (backing_object config t)) r2.1 in
  let l1 := step_line (logger s) "TPR" (tpr_IsAlreadyExists r1.2) in
  let l2 := step_line (logger s)
              ("namespace " +:+ effective_namespace config)
              (errors_IsAlreadyExists r2.2) in
  let l3 := step_line (logger s)
              ("TPO " +:+ TPOConfig.Name (TPO config))
              (errors_IsAlreadyExists r3.2.2) in
  New tpr_New config e =
    if negb (goes_on tpr_IsAlreadyExists r1.2) then
      ({| cluster := r1.1; logged := logged e |},
       (None, foreign_error <$> r1.2))
    else if negb (goes_on errors_IsAlreadyExists r2.2) then
      ({| cluster := r2.1; logged := logged e ++ [l1] |},
       (None, (λ err : foreign,
                 microerror.Maskf err "creating namespace %#v"
                   [ArgNamespace (namespace_object config)]) <$> r2.2))
    else if negb (goes_on errors_IsAlreadyExists r3.2.2) then
      ({| cluster := r3.1; logged := logged e ++ [l1; l2] |},
       (None, (λ err : foreign,
                 microerror.Maskf err "creating TPO %#v"
                   [ArgObject (backing_object config t)]) <$> r3.2.2))
    else
      ({| cluster := r3.1; logged := logged e ++ [l1; l2; l3] |},
       (Some s, None)).
Proof.
  intros Hk Hl Hn Hv Ho Ht. unfold New. rewrite Hk, Hl.
  do 3 (case_decide; [done|]).
  fold (effective_namespace config). fold (tpr_config config k8s lg).
  rewrite Ht. fold (storage_for config k8s lg t).
  fold (namespace_object config). fold (backing_object config t).
  cbv zeta. unfold bind, call, Log, ret, json_Marshal, step_line,
    microerror.Mask.
  destruct e as [w lg0]. cbn [cluster logged].
  cbn [tpr_ k8sClient storage_for].
  destruct (tpr.CreateAndWait t w) as [w1 err1]; cbn [fst snd].
  destruct (tpr_IsAlreadyExists err1) eqn:Hae1;
    [rewrite goes_on_already_exists by done
    |destruct err1 as [f1|];
       [rewrite goes_on_error by done;
            rewrite <-?app_assoc; reflexivity
          |rewrite goes_on_nil]];
    cbn [negb fst snd cluster logged];
    (destruct (kubernetes.Namespaces_Create k8s _ w1) as [w2 err2];
     cbn [fst snd cluster logged];
     destruct (errors_IsAlreadyExists err2) eqn:Hae2;
       [rewrite goes_on_already_exists by done
       |destruct err2 as [f2|];
          [rewrite goes_on_error by done;
            rewrite <-?app_assoc; reflexivity
          |rewrite goes_on_nil]];
     cbn [negb fst snd cluster logged];
     (destruct (kubernetes.Post k8s _ _ w2) as [w3 [res3 err3]];
      cbn [fst snd cluster logged];
      destruct (errors_IsAlreadyExists err3) eqn:Hae3;
        [rewrite goes_on_already_exists by done
        |destruct err3 as [f3|];
           [rewrite goes_on_error by done;
            rewrite <-?app_assoc; reflexivity
          |rewrite goes_on_nil]];
      cbn [negb fst snd cluster logged]; rewrite <-?app_assoc;
      reflexivity)).
Qed.

Lemma IsInvalidConfig_foreign (g : foreign → error) (o : option foreign) :
  (∀ f, Cause (g f) = Foreign f) → IsInvalidConfig (g <$> o) = false.
Proof.
  intros Hg. destruct o as [f|]; [|done].
  unfold IsInvalidConfig, hasCause. cbn. by rewrite Hg.
Qed.

(** On a configuration that passes the checks, an error of [New] is an
    error of a collaborator. *)
Lemma New_complete_not_invalid config k8s lg e :
  K8sClient config = Some k8s →
  Logger config = Some lg →
  TPRConfig.Name (TPR config) ≠ "" →
  TPRConfig.Version (TPR config) ≠ "" →
  TPOConfig.Name (TPO config) ≠ "" →
  IsInvalidConfig (New tpr_New config e).2.2 = false.
Proof.
  intros Hk Hl Hn Hv Ho.
  destruct (tpr_New (tpr_config config k8s lg)) as [f|t] eqn:Ht.
  - unfold New. rewrite Hk, Hl. do 3 (case_decide; [done|]).
    fold (effective_namespace config). fold (tpr_config config k8s lg).
    by rewrite Ht.
  - rewrite (New_run config k8s lg t) by done. cbv zeta.
    repeat case_match; cbn [fst snd];
      first [done | by apply IsInvalidConfig_foreign].
Qed.

End NewRun.

(** C9.  [New] fails with [invalidConfigError] exactly when a required
    parameter is missing or empty: the client is nil, the logger is nil,
    the name or the version of the resource is empty, or the name of the
    object is empty.  It then returns no [Storage] and has done nothing.
    The description plays no part in this. *)
Theorem New_invalid_configuration {W}
    (tpr_New : tpr.Config W → foreign + tpr.TPR W) (config : Config W) e :
  (IsInvalidConfig (New tpr_New config e).2.2 = true
   ↔ K8sClient config = None ∨ Logger config = None
     ∨ TPRConfig.Name (TPR config) = ""
     ∨ TPRConfig.Version (TPR config) = ""
     ∨ TPOConfig.Name (TPO config) = "")
  ∧ (IsInvalidConfig (New tpr_New config e).2.2 = true →
     (New tpr_New config e).2.1 = None ∧ (New tpr_New config e).1 = e).
Proof.
  destruct (K8sClient config) as [k8s|] eqn:Hk.
  2:{ unfold New. rewrite Hk. cbn. split; [split|]; eauto. }
  destruct (Logger config) as [lg|] eqn:Hl.
  2:{ unfold New. rewrite Hk, Hl. cbn. split; [split|]; eauto. }
  destruct (decide (TPRConfig.Name (TPR config) = "")) as [Hn|Hn].
  { unfold New. rewrite Hk, Hl, decide_True by done. cbn.
    split; [split|]; eauto. }
  destruct (decide (TPRConfig.Version (TPR config) = "")) as [Hv|Hv].
  { unfold New. rewrite Hk, Hl, decide_False, decide_True by done. cbn.
    split; [split|]; eauto 6. }
  destruct (decide (TPOConfig.Name (TPO config) = "")) as [Ho|Ho].
  { unfold New. rewrite Hk, Hl, !decide_False, decide_True by done. cbn.
    split; [split|]; eauto 6. }
  rewrite (New_complete_not_invalid tpr_New config k8s lg) by done.
  split; [split|]; [done| |done].
  intros [?|[?|[?|[?|?]]]]; done.
Qed.

Lemma New_invalid_configuration_witness :
  (New fake.tpr_New (DefaultConfig (W := fake.Cluster)) (start fake.empty)).2.1
  = None
  ∧ (New fake.tpr_New (DefaultConfig (W := fake.Cluster)) (start fake.empty)).1
    = start fake.empty.
Proof.
  apply (proj2 (New_invalid_configuration fake.tpr_New DefaultConfig
                  (start fake.empty))).
  reflexivity.
Defined.

(** ** Listing *)

Section Listing.

Context {W : Type}.
Variable range_keys : gmap string string → list string.

Implicit Types s : Storage W.
Implicit Types data : gmap string string.

Lemma range_keys_elem data k :
  range_keys data ≡ₚ (map_to_list data).*1 →
  k ∈ range_keys data ↔ is_Some (data !! k).
Proof.
  intros ->. rewrite list_elem_of_fmap. split.
  - intros [[k' v] [-> Hkv]]. apply elem_of_map_to_list in Hkv. eauto.
  - intros [v Hv]. exists (k, v). by rewrite elem_of_map_to_list.
Qed.

(** When no key of the data map equals the prefix, [List] returns the
    sub-keys the specification describes, in the order of the range. *)
Lemma List_without_exact_match s key e e' data :
  range_keys data ≡ₚ (map_to_list data).*1 →
  getData s e = (e', (data, None)) →
  data !! key = None →
  List range_keys s key e
  = (e', Go.Returned (List_spec key (range_keys data), None)).
Proof.
  intros Hperm Hget Hk. rewrite List_run, Hget.
  rewrite List_range_no_exact_match; [done|].
  rewrite range_keys_elem by done. rewrite Hk. by intros [? ?].
Qed.

(** When moreover no key is selected, the result is the empty sequence
    and no error. *)
Lemma List_nothing_matches s key e e' data :
  range_keys data ≡ₚ (map_to_list data).*1 →
  getData s e = (e', (data, None)) →
  (∀ k, is_Some (data !! k) → selected key k = false) →
  List range_keys s key e = (e', Go.Returned ([], None)).
Proof.
  intros Hperm Hget Hnone.
  assert (data !! key = None) as Hk.
  { destruct (data !! key) eqn:Hk; [|done].
    specialize (Hnone key ltac:(eauto)). unfold selected in Hnone.
    by rewrite bool_decide_eq_true_2 in Hnone. }
  rewrite (List_without_exact_match s key e e' data) by done.
  do 3 f_equal. unfold List_spec.
  assert (∀ k, k ∈ range_keys data → selected key k = false) as Hall.
  { intros k Hin. apply Hnone. by apply range_keys_elem. }
  clear -Hall. induction (range_keys data) as [|k ks IH]; [done|].
  cbn [filter list_filter]. rewrite decide_False.
  - apply IH. intros k' Hk'. apply Hall. by right.
  - rewrite Hall; [done|by left].
Qed.

End Listing.

(** C2 (fails on the code).  The rule of the specification selects, for
    the prefix "/foo" over the store with the keys "/foo", "/foo/bar" and
    "/foobar", the keys "/foo" and "/foo/bar", with the sub-keys "" and
    "bar".  [List] on that store, in whatever order the range visits the
    keys, ends in a run-time panic instead: the key equal to the prefix is
    sliced one byte past its end. *)
Theorem List_spec_example_panics
    (range_keys : gmap string string → list string)
    (s : Storage fake.Cluster) e :
  range_keys demo.foo_data ≡ₚ (map_to_list demo.foo_data).*1 →
  fake.connected s →
  fake.stored (cluster e) (tpoEndpoint s) = Some demo.foo_data →
  List_spec "/foo" (range_keys demo.foo_data) ≡ₚ [""; "bar"]
  ∧ List range_keys s "/foo" e
    = (e, Go.Panicked "slice bounds out of range").
Proof.
  intros Hperm Hs Hd. split.
  - unfold List_spec. rewrite Hperm. vm_compute. apply perm_swap.
  - rewrite List_run, getData_connected by done.
    unfold fake.stored in Hd.
    destruct (fake.objects (cluster e) !! tpoEndpoint s) as [o|]; [|done].
    injection Hd as ->.
    rewrite List_range_exact_match; [done|].
    rewrite (range_keys_elem range_keys) by done. by exists "a".
Qed.

Lemma List_spec_example_panics_witness :
  List fake.range_keys demo.storage "/foo" demo.foo_store
  = (demo.foo_store, Go.Panicked "slice bounds out of range").
Proof.
  apply (proj2 (List_spec_example_panics fake.range_keys demo.storage
                  demo.foo_store (reflexivity _) eq_refl
                  ltac:(vm_compute; reflexivity))).
Defined.

(** C3 (fails on the code).  [List] is not total: whenever the data map
    that has been fetched contains a key equal to the prefix, the slice
    [k[keyLen+1:]] starts one past the end of that key and [List] panics,
    in whatever order the range visits the keys. *)
Theorem List_panics_on_key_equal_to_prefix {W}
    (range_keys : gmap string string → list string)
    (s : Storage W) key e e' data :
  range_keys data ≡ₚ (map_to_list data).*1 →
  getData s e = (e', (data, None)) →
  is_Some (data !! key) →
  List range_keys s key e = (e', Go.Panicked "slice bounds out of range").
Proof.
  intros Hperm Hget Hk. rewrite List_run, Hget.
  rewrite List_range_exact_match; [done|].
  by rewrite (range_keys_elem range_keys).
Qed.

Lemma List_panics_on_key_equal_to_prefix_witness :
  List fake.range_keys demo.storage "/k"
       (Put demo.storage "/k" "v" demo.booted).1
  = ((Put demo.storage "/k" "v" demo.booted).1,
     Go.Panicked "slice bounds out of range").
Proof.
  apply (List_panics_on_key_equal_to_prefix fake.range_keys demo.storage "/k"
           (Put demo.storage "/k" "v" demo.booted).1
           (Put demo.storage "/k" "v" demo.booted).1
           {[ "/k" := "v" ]} (reflexivity _)).
  - vm_compute. reflexivity.
  - exists "v". vm_compute. reflexivity.
Defined.

(** ** Bootstrap on the cluster *)

Section FakeBootstrap.

Implicit Types w : fake.Cluster.
Implicit Types config : Config fake.Cluster.
Implicit Types e : env fake.Cluster.

Lemma fake_tpr_New_complete config lg :
  TPRConfig.Name (TPR config) ≠ "" →
  TPRConfig.Version (TPR config) ≠ "" →
  fake.tpr_New (tpr_config config fake.client lg)
  = inr (fake.resource (TPRConfig.Name (TPR config))
                       (TPRConfig.Version (TPR config))).
Proof.
  intros Hn Hv. unfold fake.tpr_New, tpr_config. cbn.
  rewrite decide_False; [done|]. by intros [?|?].
Qed.

(** Registering the resource never fails on this cluster, and leaves
    the resource registered. *)
Lemma fake_CreateAndWait name version w :
  goes_on tpr_IsAlreadyExists
    (tpr.CreateAndWait (fake.resource name version) w).2 = true
  ∧ name ∈ fake.thirdPartyResources
             (tpr.CreateAndWait (fake.resource name version) w).1
  ∧ fake.namespaces (tpr.CreateAndWait (fake.resource name version) w).1
    = fake.namespaces w
  ∧ fake.objects (tpr.CreateAndWait (fake.resource name version) w).1
    = fake.objects w.
Proof.
  cbn [tpr.CreateAndWait fake.resource]. case_decide; cbn.
  - done.
  - split; [done|]. split; [set_solver|done].
Qed.

Lemma fake_Namespaces_Create ns w :
  goes_on errors_IsAlreadyExists (fake.Namespaces_Create ns w).2 = true
  ∧ apismeta.Name (api.ObjectMeta ns)
      ∈ fake.namespaces (fake.Namespaces_Create ns w).1
  ∧ fake.thirdPartyResources (fake.Namespaces_Create ns w).1
    = fake.thirdPartyResources w
  ∧ fake.objects (fake.Namespaces_Create ns w).1 = fake.objects w.
Proof.
  unfold fake.Namespaces_Create. case_decide; cbn.
  - done.
  - split; [done|]. split; [set_solver|done].
Qed.

(** When [New] may go on after the POST, the object is there. *)
Lemma fake_Post_goes_on path o w :
  goes_on errors_IsAlreadyExists
    (fake.Post path (Marshal_customObject o) w).2.2 = true →
  is_Some (fake.objects (fake.Post path (Marshal_customObject o) w).1
           !! (path +:+ "/" +:+ apismeta.Name (ObjectMeta o)))
  ∧ fake.thirdPartyResources (fake.Post path (Marshal_customObject o) w).1
    = fake.thirdPartyResources w
  ∧ fake.namespaces (fake.Post path (Marshal_customObject o) w).1
    = fake.namespaces w.
Proof.
  unfold fake.Post, fake.failed. rewrite decode_customObject_Marshal.
  case_decide; [|done].
  destruct (fake.objects w !! _) as [o'|] eqn:Ho; cbn.
  - by rewrite Ho.
  - by rewrite lookup_insert_eq.
Qed.

Lemma fake_CreateAndWait_again name version w :
  name ∈ fake.thirdPartyResources w →
  tpr.CreateAndWait (fake.resource name version) w
  = (w, Some tprAlreadyExistsError).
Proof. intros Hin. cbn. by rewrite decide_True. Qed.

Lemma fake_Namespaces_Create_again ns w :
  apismeta.Name (api.ObjectMeta ns) ∈ fake.namespaces w →
  fake.Namespaces_Create ns w
  = (w, Some (StatusError StatusReasonAlreadyExists)).
Proof. intros Hin. unfold fake.Namespaces_Create. by rewrite decide_True. Qed.

(** On a cluster that is provisioned already, the POST answers that the
    object exists and changes nothing. *)
Lemma fake_Post_again path o w :
  apismeta.Kind (TypeMeta o) ∈ fake.thirdPartyResources w →
  apismeta.Namespace (ObjectMeta o) ∈ fake.namespaces w →
  is_Some (fake.objects w !! (path +:+ "/" +:+ apismeta.Name (ObjectMeta o))) →
  fake.Post path (Marshal_customObject o) w
  = (w, (JNull, Some (StatusError StatusReasonAlreadyExists))).
Proof.
  intros Hk Hn [o' Ho]. unfold fake.Post, fake.failed.
  rewrite decode_customObject_Marshal, decide_True by done.
  by rewrite Ho.
Qed.

(** A bootstrap that has succeeded leaves the cluster provisioned. *)
Lemma New_provisions config e e1 s1 :
  K8sClient config = Some fake.client →
  New fake.tpr_New config e = (e1, (Some s1, None)) →
  ∃ lg, Logger config = Some lg
        ∧ TPRConfig.Name (TPR config) ≠ ""
        ∧ TPRConfig.Version (TPR config) ≠ ""
        ∧ TPOConfig.Name (TPO config) ≠ ""
        ∧ s1 = storage_for config fake.client lg
                 (fake.resource (TPRConfig.Name (TPR config))
                                (TPRConfig.Version (TPR config)))
        ∧ provisioned (cluster e1) config.
Proof.
  intros Hk.
  destruct (Logger config) as [lg|] eqn:Hl.
  2:{ unfold New. rewrite Hk, Hl. intros [=]. }
  destruct (decide (TPRConfig.Name (TPR config) = "")) as [Hn|Hn].
  { unfold New. rewrite Hk, Hl, decide_True by done. intros [=]. }
  destruct (decide (TPRConfig.Version (TPR config) = "")) as [Hv|Hv].
  { unfold New. rewrite Hk, Hl, decide_False, decide_True by done.
    intros [=]. }
  destruct (decide (TPOConfig.Name (TPO config) = "")) as [Ho|Ho].
  { unfold New. rewrite Hk, Hl, !decide_False, decide_True by done.
    intros [=]. }
  rewrite (New_run fake.tpr_New config fake.client lg _ e Hk Hl Hn Hv Ho
             (fake_tpr_New_complete config lg Hn Hv)).
  cbv zeta. cbn [kubernetes.Namespaces_Create kubernetes.Post fake.client
                 tpoListEndpoint storage_for].
  set (t := fake.resource _ _).
  destruct (fake_CreateAndWait (TPRConfig.Name (TPR config))
              (TPRConfig.Version (TPR config)) (cluster e))
    as (Hg1 & Hin1 & Hns1 & Hob1).
  fold t in Hg1, Hin1, Hns1, Hob1.
  set (r1 := tpr.CreateAndWait t (cluster e)) in *.
  destruct (fake_Namespaces_Create (namespace_object config) r1.1)
    as (Hg2 & Hin2 & Htp2 & Hob2).
  set (r2 := fake.Namespaces_Create (namespace_object config) r1.1) in *.
  rewrite Hg1, Hg2. cbn [negb].
  destruct (goes_on errors_IsAlreadyExists (fake.Post _ _ _).2.2) eqn:Hg3;
    cbn [negb]; [|intros [=]].
  intros [= <- <-]. exists lg. do 4 (split; [done|]). split; [done|].
  apply fake_Post_goes_on in Hg3 as (Hob3 & Htp3 & Hns3).
  rewrite <-Htp2, <-Htp3 in Hin1. rewrite <-Hns3 in Hin2.
  exact (conj Hin1 (conj Hin2 Hob3)).
Qed.

(** A bootstrap on a provisioned cluster succeeds, changes nothing in
    the cluster and logs that the three things exist already. *)
Lemma New_provisioned config lg e :
  K8sClient config = Some fake.client →
  Logger config = Some lg →
  TPRConfig.Name (TPR config) ≠ "" →
  TPRConfig.Version (TPR config) ≠ "" →
  TPOConfig.Name (TPO config) ≠ "" →
  provisioned (cluster e) config →
  let s := storage_for config fake.client lg
             (fake.resource (TPRConfig.Name (TPR config))
                            (TPRConfig.Version (TPR config))) in
  New fake.tpr_New config e =
    ({| cluster := cluster e;
        logged := logged e ++
          [ step_line (logger s) "TPR" true;
            step_line (logger s)
              ("namespace " +:+ effective_namespace config) true;
            step_line (logger s)
              ("TPO " +:+ TPOConfig.Name (TPO config)) true ] |},
     (Some s, None)).
Proof.
  intros Hk Hl Hn Hv Ho (Htp & Hns & Hob).
  rewrite (New_run fake.tpr_New config fake.client lg _ e Hk Hl Hn Hv Ho
             (fake_tpr_New_complete config lg Hn Hv)).
  cbv zeta. cbn [kubernetes.Namespaces_Create kubernetes.Post fake.client
                 tpoListEndpoint storage_for].
  rewrite !fake_CreateAndWait_again by done. cbn [fst snd].
  rewrite !fake_Namespaces_Create_again by done. cbn [fst snd].
  rewrite !fake_Post_again by done. done.
Qed.

End FakeBootstrap.

Lemma goes_on_false isAlreadyExists (err : option foreign) :
  goes_on isAlreadyExists err = false → is_Some err.
Proof.
  destruct err as [f|]; [eauto|]. by rewrite goes_on_nil.
Qed.

(** C10.  In the provisioning done by [New] on a configuration that
    passes the checks, each of the three steps (register the resource,
    create the namespace, create the backing object) lets [New] go on when
    it answers without error or with its already-exists error, and a line
    saying so is logged; any other error of a step ends [New] with no
    [Storage] and with that error as the cause of the error returned.
    Consequently, on the cluster, a bootstrap repeated after a successful
    one with the same configuration succeeds, returns the same [Storage],
    leaves the cluster as it is and logs that the three things exist
    already. *)
Theorem New_already_exists_is_success :
  (∀ (W : Type) (tpr_New : tpr.Config W → foreign + tpr.TPR W)
     (config : Config W) k8s lg t (e : env W),
     K8sClient config = Some k8s →
     Logger config = Some lg →
     TPRConfig.Name (TPR config) ≠ "" →
     TPRConfig.Version (TPR config) ≠ "" →
     TPOConfig.Name (TPO config) ≠ "" →
     tpr_New (tpr_config config k8s lg) = inr t →
     let s := storage_for config k8s lg t in
     let r1 := tpr.CreateAndWait t (cluster e) in
     let r2 := kubernetes.Namespaces_Create k8s (namespace_object config) r1.1 in
     let r3 := kubernetes.Post k8s (tpoListEndpoint s)
                 (Marshal_customObject (backing_object config t)) r2.1 in
     let out := New tpr_New config e in
     (goes_on tpr_IsAlreadyExists r1.2 = false →
        out.2.1 = None ∧ is_Some out.2.2
        ∧ Cause <$> out.2.2 = Foreign <$> r1.2)
     ∧ (goes_on tpr_IsAlreadyExists r1.2 = true →
        goes_on errors_IsAlreadyExists r2.2 = false →
        out.2.1 = None ∧ is_Some out.2.2
        ∧ Cause <$> out.2.2 = Foreign <$> r2.2)
     ∧ (goes_on tpr_IsAlreadyExists r1.2 = true →
        goes_on errors_IsAlreadyExists r2.2 = true →
        goes_on errors_IsAlreadyExists r3.2.2 = false →
        out.2.1 = None ∧ is_Some out.2.2
        ∧ Cause <$> out.2.2 = Foreign <$> r3.2.2)
     ∧ (goes_on tpr_IsAlreadyExists r1.2 = true →
        goes_on errors_IsAlreadyExists r2.2 = true →
        goes_on errors_IsAlreadyExists r3.2.2 = true →
        out.2 = (Some s, None)
        ∧ cluster out.1 = r3.1
        ∧ logged out.1 = (logged e ++
            [ step_line (logger s) "TPR" (tpr_IsAlreadyExists r1.2);
              step_line (logger s)
                ("namespace " +:+ effective_namespace config)
                (errors_IsAlreadyExists r2.2);
              step_line (logger s)
                ("TPO " +:+ TPOConfig.Name (TPO config))
                (errors_IsAlreadyExists r3.2.2) ])%list))
  ∧ (∀ (config : Config fake.Cluster) e e1 s1,
       K8sClient config = Some fake.client →
       New fake.tpr_New config e = (e1, (Some s1, None)) →
       New fake.tpr_New config e1 =
         ({| cluster := cluster e1;
             logged := logged e1 ++
               [ step_line (logger s1) "TPR" true;
                 step_line (logger s1)
                   ("namespace " +:+ effective_namespace config) true;
                 step_line (logger s1)
                   ("TPO " +:+ TPOConfig.Name (TPO config)) true ] |},
          (Some s1, None))).
Proof.
  split.
  - intros W tpr_New config k8s lg t e Hk Hl Hn Hv Ho Ht. cbv zeta.
    rewrite (New_run tpr_New config k8s lg t e) by done. cbv zeta.
    set (r1 := tpr.CreateAndWait t (cluster e)).
    set (r2 := kubernetes.Namespaces_Create k8s _ r1.1).
    set (r3 := kubernetes.Post k8s _ _ r2.1).
    split; [|split; [|split]].
    + intros Hg1. rewrite Hg1. cbn [negb fst snd].
      destruct (goes_on_false _ _ Hg1) as [f1 ->]. cbn. eauto.
    + intros Hg1 Hg2. rewrite Hg1, Hg2. cbn [negb fst snd].
      destruct (goes_on_false _ _ Hg2) as [f2 ->]. cbn. eauto.
    + intros Hg1 Hg2 Hg3. rewrite Hg1, Hg2, Hg3. cbn [negb fst snd].
      destruct (goes_on_false _ _ Hg3) as [f3 ->]. cbn. eauto.
    + intros Hg1 Hg2 Hg3. rewrite Hg1, Hg2, Hg3. cbn [negb fst snd].
      done.
  - intros config e e1 s1 Hk Hnew.
    destruct (New_provisions config e e1 s1 Hk Hnew)
      as (lg & Hl & Hn & Hv & Ho & -> & Hready).
    by apply New_provisioned.
Qed.

Lemma New_already_exists_is_success_witness :
  New fake.tpr_New demo.config demo.booted =
    ({| cluster := cluster demo.booted;
        logged := logged demo.booted ++
          [ step_line (logger demo.storage) "TPR" true;
            step_line (logger demo.storage)
              ("namespace " +:+ effective_namespace demo.config) true;
            step_line (logger demo.storage)
              ("TPO " +:+ TPOConfig.Name (TPO demo.config)) true ] |},
     (Some demo.storage, None)).
Proof.
  apply (proj2 New_already_exists_is_success demo.config (start fake.empty)
           demo.booted demo.storage eq_refl).
  reflexivity.
Defined.

(** * Further properties of the methods *)

(** ** Keys under a prefix *)

Section UnderPrefix.

Implicit Types key k sub : string.

Lemma under_prefix key sub : Go.HasPrefix (key +:+ "/" +:+ sub) (key +:+ "/") = true.
Proof.
  unfold Go.HasPrefix. rewrite <-(app_assoc_str key "/" sub).
  apply prefix_app.
Qed.

Lemma under_prefix_inv key k :
  Go.HasPrefix k (key +:+ "/") = true → ∃ sub, k = key +:+ "/" +:+ sub.
Proof.
  intros H. destruct (prefix_split _ _ H) as [sub ->].
  exists sub. apply app_assoc_str.
Qed.

Lemma remainder_under key sub : remainder key (key +:+ "/" +:+ sub) = sub.
Proof.
  unfold remainder. rewrite len_app, substring_app_r.
  change ("/" +:+ sub) with (String "/" sub).
  replace (Go.len key + Go.len (String "/" sub) - (Go.len key + 1))
    with (Go.len sub) by (unfold Go.len; simpl; lia).
  cbn [String.substring]. apply substring_whole.
Qed.


(** The sub-keys of the specification's rule over keys none of which is
    the prefix itself: [sub] is one exactly when prefix, slash and [sub]
    make up one of the keys. *)
Lemma elem_of_List_spec key sub ks :
  key ∉ ks →
  sub ∈ List_spec key ks ↔ key +:+ "/" +:+ sub ∈ ks.
Proof.
  intros Hkey. unfold List_spec. rewrite list_elem_of_fmap. split.
  - intros (k & -> & Hk). apply list_elem_of_filter in Hk as [Hsel Hin].
    unfold selected in Hsel. rewrite bool_decide_eq_false_2 in Hsel.
    + cbn [orb] in Hsel. destruct (under_prefix_inv _ _ Hsel) as [sub' ->].
      by rewrite remainder_under.
    + by intros ->.
  - intros Hin. exists (key +:+ "/" +:+ sub).
    rewrite remainder_under. split; [done|].
    apply list_elem_of_filter. split; [|done].
    unfold selected. rewrite under_prefix. apply orb_true_r.
Qed.

Lemma NoDup_List_spec key ks :
  key ∉ ks → NoDup ks → NoDup (List_spec key ks).
Proof.
  intros Hkey Hnd. unfold List_spec. apply NoDup_fmap_2_strong.
  - intros k1 k2 Hk1 Hk2 Heq.
    apply list_elem_of_filter in Hk1 as [Hs1 Hin1].
    apply list_elem_of_filter in Hk2 as [Hs2 Hin2].
    unfold selected in Hs1, Hs2.
    rewrite bool_decide_eq_false_2 in Hs1 by (by intros ->).
    rewrite bool_decide_eq_false_2 in Hs2 by (by intros ->).
    cbn [orb] in Hs1, Hs2.
    destruct (under_prefix_inv _ _ Hs1) as [s1 ->].
    destruct (under_prefix_inv _ _ Hs2) as [s2 ->].
    rewrite !remainder_under in Heq. by subst.
  - by apply NoDup_filter.
Qed.

End UnderPrefix.

(** ** Reading, for any client *)

(** X1.  [Exists] and [Search] agree on every state and for every client:
    they leave the same state, [Exists] answers true without error exactly
    when [Search] returns without error, and [Exists] answers false without
    error exactly when [Search] fails with the not-found error. *)
Theorem Exists_agrees_with_Search {W} (s : Storage W) key e :
  (Exists s key e).1 = (Search s key e).1
  ∧ ((Exists s key e).2 = (true, None) ↔ (Search s key e).2.2 = None)
  ∧ ((Exists s key e).2 = (false, None)
     ↔ IsNotFound (Search s key e).2.2 = true).
Proof.
  rewrite Exists_run, Search_run.
  destruct (getData s e) as [e' [data [err|]]] eqn:Hget; cbn [fst snd].
  - destruct (getData_error _ _ _ _ _ Hget) as [f Hf].
    split; [done|]. split; [done|].
    unfold IsNotFound, hasCause. cbn [microerror.Maskf Cause].
    rewrite Hf. done.
  - destruct (data !! key) as [v|] eqn:Hk; cbn [fst snd].
    + rewrite bool_decide_eq_true_2 by eauto. done.
    + rewrite bool_decide_eq_false_2 by (by intros [? ?]). done.
Qed.

(** X2.  When fetching or decoding the backing object fails, [Exists],
    [Search] and [List] all return their zero value together with an error
    that has the cause of that failure; [List] does not panic and none of
    the errors is the not-found error. *)
Theorem reads_propagate_fetch_error {W}
    (range_keys : gmap string string → list string)
    (s : Storage W) key e e' data err :
  getData s e = (e', (data, Some err)) →
  ∃ err1 err2 err3,
    Exists s key e = (e', (false, Some err1))
    ∧ Search s key e = (e', ("", Some err2))
    ∧ List range_keys s key e = (e', Go.Returned ([], Some err3))
    ∧ Cause err1 = Cause err ∧ Cause err2 = Cause err ∧ Cause err3 = Cause err
    ∧ IsNotFound (Some err1) = false
    ∧ IsNotFound (Some err2) = false
    ∧ IsNotFound (Some err3) = false.
Proof.
  intros Hget. rewrite Exists_run, Search_run, List_run, Hget.
  destruct (getData_error _ _ _ _ _ Hget) as [f Hf].
  do 3 eexists. do 6 (split; [reflexivity|]).
  unfold IsNotFound, hasCause. cbn [microerror.Maskf Cause].
  rewrite Hf. done.
Qed.

Lemma reads_propagate_fetch_error_witness :
  ∃ err1 err2 err3,
    Exists demo.storage "/k" (start fake.empty)
      = (start fake.empty, (false, Some err1))
    ∧ Search demo.storage "/k" (start fake.empty)
      = (start fake.empty, ("", Some err2))
    ∧ List fake.range_keys demo.storage "/k" (start fake.empty)
      = (start fake.empty, Go.Returned ([], Some err3))
    ∧ Cause err1 = Foreign (StatusError StatusReasonNotFound)
    ∧ Cause err2 = Foreign (StatusError StatusReasonNotFound)
    ∧ Cause err3 = Foreign (StatusError StatusReasonNotFound)
    ∧ IsNotFound (Some err1) = false
    ∧ IsNotFound (Some err2) = false
    ∧ IsNotFound (Some err3) = false.
Proof.
  apply (reads_propagate_fetch_error fake.range_keys demo.storage "/k"
           (start fake.empty) (start fake.empty) ∅
           (microerror.Maskf (StatusError StatusReasonNotFound) "get TPO" [])).
  reflexivity.
Defined.

(** ** Listing, when no key equals the prefix *)

(** X3.  For every client and every order of the range: when the data
    map has been fetched and none of its keys equals the prefix, [List]
    returns without error the sub-keys of the keys that start with the
    prefix followed by a slash, in the order in which the range visits
    those keys. *)
Theorem List_returns_the_sub_keys {W}
    (range_keys : gmap string string → list string)
    (s : Storage W) key e e' data :
  range_keys data ≡ₚ (map_to_list data).*1 →
  getData s e = (e', (data, None)) →
  data !! key = None →
  List range_keys s key e
  = (e', Go.Returned
           (remainder key <$>
              filter (λ k, Go.HasPrefix k (key +:+ "/") = true)
                     (range_keys data), None)).
Proof.
  intros Hperm Hget Hk.
  rewrite (List_without_exact_match range_keys s key e e' data) by done.
  do 3 f_equal. unfold List_spec. f_equal.
  assert (key ∉ range_keys data) as Hnot.
  { rewrite range_keys_elem by done. rewrite Hk. by intros [? ?]. }
  clear -Hnot. induction (range_keys data) as [|k ks IH]; [done|].
  apply not_elem_of_cons in Hnot as [Hne Hnot].
  assert (selected key k = Go.HasPrefix k (key +:+ "/")) as Hsel.
  { unfold selected. by rewrite bool_decide_eq_false_2. }
  cbn [filter list_filter].
  destruct (decide (selected key k = true)),
           (decide (Go.HasPrefix k (key +:+ "/") = true));
    try congruence; [f_equal|]; by apply IH.
Qed.

Lemma List_returns_the_sub_keys_witness :
  List fake.range_keys demo.storage "" demo.foo_store
  = (demo.foo_store,
     Go.Returned
       (remainder "" <$>
          filter (λ k, Go.HasPrefix k ("" +:+ "/") = true)
                 (fake.range_keys demo.foo_data), None)).
Proof.
  apply (List_returns_the_sub_keys fake.range_keys demo.storage ""
           demo.foo_store demo.foo_store demo.foo_data (reflexivity _)).
  - vm_compute. reflexivity.
  - vm_compute. reflexivity.
Defined.

(** X4.  Under the same conditions the result of [List] has no
    duplicates and contains [sub] exactly when the prefix, a slash and
    [sub] together are a key of the data map; this does not depend on the
    order of the range. *)
Theorem List_lists_exactly_the_keys_under_the_prefix {W}
    (range_keys : gmap string string → list string)
    (s : Storage W) key e e' data :
  range_keys data ≡ₚ (map_to_list data).*1 →
  getData s e = (e', (data, None)) →
  data !! key = None →
  ∃ subs,
    List range_keys s key e = (e', Go.Returned (subs, None))
    ∧ NoDup subs
    ∧ ∀ sub, sub ∈ subs ↔ is_Some (data !! (key +:+ "/" +:+ sub)).
Proof.
  intros Hperm Hget Hk. exists (List_spec key (range_keys data)).
  assert (key ∉ range_keys data) as Hnot.
  { rewrite range_keys_elem by done. rewrite Hk. by intros [? ?]. }
  split; [by apply List_without_exact_match|]. split.
  - apply NoDup_List_spec; [done|]. rewrite Hperm.
    apply NoDup_fst_map_to_list.
  - intros sub. rewrite elem_of_List_spec by done.
    by apply range_keys_elem.
Qed.

Lemma List_lists_exactly_the_keys_under_the_prefix_witness :
  ∃ subs,
    List fake.range_keys demo.storage "" demo.foo_store
    = (demo.foo_store, Go.Returned (subs, None))
    ∧ NoDup subs
    ∧ ∀ sub, sub ∈ subs ↔ is_Some (demo.foo_data !! ("" +:+ "/" +:+ sub)).
Proof.
  apply (List_lists_exactly_the_keys_under_the_prefix fake.range_keys
           demo.storage "" demo.foo_store demo.foo_store demo.foo_data
           (reflexivity _)).
  - vm_compute. reflexivity.
  - vm_compute. reflexivity.
Defined.

(** X5.  When the data map has been fetched and none of its keys equals
    the prefix or starts with the prefix followed by a slash, [List]
    returns the empty sequence and no error. *)
Theorem List_of_no_match_is_empty {W}
    (range_keys : gmap string string → list string)
    (s : Storage W) key e e' data :
  range_keys data ≡ₚ (map_to_list data).*1 →
  getData s e = (e', (data, None)) →
  (∀ k, is_Some (data !! k) →
        k ≠ key ∧ Go.HasPrefix k (key +:+ "/") = false) →
  List range_keys s key e = (e', Go.Returned ([], None)).
Proof.
  intros Hperm Hget Hnone.
  apply List_nothing_matches with data; [done..|].
  intros k Hk. destruct (Hnone k Hk) as [Hne Hp].
  unfold selected. by rewrite bool_decide_eq_false_2, Hp.
Qed.

Lemma List_of_no_match_is_empty_witness :
  List fake.range_keys demo.storage "/fo" demo.foo_store
  = (demo.foo_store, Go.Returned ([], None)).
Proof.
  apply (List_of_no_match_is_empty fake.range_keys demo.storage "/fo"
           demo.foo_store demo.foo_store demo.foo_data (reflexivity _)).
  - vm_compute. reflexivity.
  - intros k [v Hk]. unfold demo.foo_data in Hk.
    apply lookup_insert_Some in Hk as [[<- _]|[_ Hk]]; [by vm_compute|].
    apply lookup_insert_Some in Hk as [[<- _]|[_ Hk]]; [by vm_compute|].
    apply lookup_singleton_Some in Hk as [<- _]. by vm_compute.
Defined.

(** ** What the methods leave alone *)

Section NoLog.

Context {W : Type}.
Implicit Types s : Storage W.
Implicit Types e : env W.

Lemma call_logged {A} (rpc : W → W * A) e : logged (call rpc e).1 = logged e.
Proof. unfold call. by destruct (rpc (cluster e)). Qed.

Lemma merge_patch_request_logged s body context key e :
  logged (merge_patch_request s body context key e).1 = logged e.
Proof.
  unfold merge_patch_request, bind, ret.
  pose proof (call_logged (kubernetes.Patch (k8sClient s) MergePatchType
                             (tpoEndpoint s) body) e) as H.
  by destruct (call _ e) as [e1 [res err]].
Qed.

Lemma getData_logged s e : logged (getData s e).1 = logged e.
Proof.
  unfold getData, bind, ret.
  pose proof (call_logged (kubernetes.Get (k8sClient s) (tpoEndpoint s)) e)
    as H.
  destruct (call _ e) as [e1 [res [err|]]]; [done|].
  by destruct (json_Unmarshal res) as [v [err|]].
Qed.

End NoLog.

(** X6.  None of the key-value methods writes to the logger: for every
    client, the log after [Put], [Create], [Delete], [Exists], [Search] or
    [List] is the log before it. *)
Theorem key_value_methods_log_nothing {W}
    (range_keys : gmap string string → list string)
    (s : Storage W) key value e :
  logged (Put s key value e).1 = logged e
  ∧ logged (Create s key value e).1 = logged e
  ∧ logged (Delete s key e).1 = logged e
  ∧ logged (Exists s key e).1 = logged e
  ∧ logged (Search s key e).1 = logged e
  ∧ logged (List range_keys s key e).1 = logged e.
Proof.
  rewrite Create_returns_nil, Put_request, Delete_request. cbn [fst].
  rewrite !merge_patch_request_logged.
  rewrite Exists_run, Search_run, List_run.
  pose proof (getData_logged s e) as H.
  destruct (getData s e) as [e' [data [err|]]]; cbn [fst] in *.
  - done.
  - by destruct (data !! key).
Qed.

(** ** What [New] hands back *)

Section NewResult.

Context {W : Type}.
Variable tpr_New : tpr.Config W → foreign + tpr.TPR W.

Implicit Types config : Config W.
Implicit Types e : env W.

(** A [Storage] comes back only from a configuration that passes the
    checks and for which [tpr.New] has succeeded, and it is the one built
    from them. *)
Lemma New_success_inv config e e' s :
  New tpr_New config e = (e', (Some s, None)) →
  ∃ k8s lg t,
    K8sClient config = Some k8s
    ∧ Logger config = Some lg
    ∧ TPRConfig.Name (TPR config) ≠ ""
    ∧ TPRConfig.Version (TPR config) ≠ ""
    ∧ TPOConfig.Name (TPO config) ≠ ""
    ∧ tpr_New (tpr_config config k8s lg) = inr t
    ∧ s = storage_for config k8s lg t.
Proof.
  destruct (K8sClient config) as [k8s|] eqn:Hk.
  2:{ unfold New. rewrite Hk. intros [=]. }
  destruct (Logger config) as [lg|] eqn:Hl.
  2:{ unfold New. rewrite Hk, Hl. intros [=]. }
  destruct (decide (TPRConfig.Name (TPR config) = "")) as [Hn|Hn].
  { unfold New. rewrite Hk, Hl, decide_True by done. intros [=]. }
  destruct (decide (TPRConfig.Version (TPR config) = "")) as [Hv|Hv].
  { unfold New. rewrite Hk, Hl, decide_False, decide_True by done.
    intros [=]. }
  destruct (decide (TPOConfig.Name (TPO config) = "")) as [Ho|Ho].
  { unfold New. rewrite Hk, Hl, !decide_False, decide_True by done.
    intros [=]. }
  destruct (tpr_New (tpr_config config k8s lg)) as [f|t] eqn:Ht.
  { unfold New. rewrite Hk, Hl. do 3 (case_decide; [done|]).
    fold (effective_namespace config). fold (tpr_config config k8s lg).
    rewrite Ht. intros [=]. }
  rewrite (New_run tpr_New config k8s lg t e) by done. cbv zeta.
  intros H. exists k8s, lg, t. do 6 (split; [done|]).
  repeat case_match; by simplify_eq.
Qed.

End NewResult.

(** X7.  The [Storage] that [New] returns, for every client: it holds the
    client of the configuration, its collection endpoint is the endpoint
    of the resource for the namespace of the configuration, or for the
    namespace "default" when the configuration names none, and its item
    endpoint is the collection endpoint, a slash and the object name,
    which is not empty. *)
Theorem New_storage_endpoints {W}
    (tpr_New : tpr.Config W → foreign + tpr.TPR W)
    (config : Config W) e e' s :
  New tpr_New config e = (e', (Some s, None)) →
  K8sClient config = Some (k8sClient s)
  ∧ tpoListEndpoint s
    = tpr.Endpoint (tpr_ s)
        (if decide (TPOConfig.Namespace (TPO config) = "")
         then "default" else TPOConfig.Namespace (TPO config))
  ∧ tpoEndpoint s = tpoListEndpoint s +:+ "/" +:+ TPOConfig.Name (TPO config)
  ∧ TPOConfig.Name (TPO config) ≠ "".
Proof.
  intros H.
  destruct (New_success_inv tpr_New config e e' s H)
    as (k8s & lg & t & Hk & Hl & Hn & Hv & Ho & Ht & ->).
  done.
Qed.

Lemma New_storage_endpoints_witness :
  K8sClient demo.config = Some (k8sClient demo.storage)
  ∧ tpoListEndpoint demo.storage
    = tpr.Endpoint (tpr_ demo.storage)
        (if decide (TPOConfig.Namespace (TPO demo.config) = "")
         then "default" else TPOConfig.Namespace (TPO demo.config))
  ∧ tpoEndpoint demo.storage
    = tpoListEndpoint demo.storage +:+ "/" +:+ TPOConfig.Name (TPO demo.config)
  ∧ TPOConfig.Name (TPO demo.config) ≠ "".
Proof.
  apply (New_storage_endpoints fake.tpr_New demo.config (start fake.empty)
           demo.booted demo.storage).
  reflexivity.
Defined.

(** X8.  An empty namespace in the configuration stands for "default":
    for every client and state, [New] on a configuration without namespace
    does and returns what it does and returns on the same configuration
    with the namespace "default". *)
Theorem New_empty_namespace_is_default {W}
    (tpr_New : tpr.Config W → foreign + tpr.TPR W)
    (config : Config W) e :
  TPOConfig.Namespace (TPO config) = "" →
  New tpr_New config e =
    New tpr_New
      {| K8sClient := K8sClient config;
         Logger := Logger config;
         TPR := TPR config;
         TPO := {| TPOConfig.Name := TPOConfig.Name (TPO config);
                   TPOConfig.Namespace := "default" |} |} e.
Proof.
  intros Hns. unfold New. cbn [K8sClient Logger TPR TPO TPOConfig.Name
                                TPOConfig.Namespace].
  rewrite Hns.
  rewrite (decide_True (P := "" = "")) by done.
  rewrite (decide_False (P := "default" = "")) by done.
  reflexivity.
Qed.

Lemma New_empty_namespace_is_default_witness :
  New fake.tpr_New demo.config (start fake.empty) =
    New fake.tpr_New
      {| K8sClient := K8sClient demo.config;
         Logger := Logger demo.config;
         TPR := TPR demo.config;
         TPO := {| TPOConfig.Name := TPOConfig.Name (TPO demo.config);
                   TPOConfig.Namespace := "default" |} |} (start fake.empty).
Proof.
  apply (New_empty_namespace_is_default fake.tpr_New demo.config
           (start fake.empty)).
  reflexivity.
Defined.

(** ** Writes on the cluster that applies merge patches *)

Section Writes.

Variable s : Storage fake.Cluster.
Hypothesis connected_s : fake.connected s.

Implicit Types e : env fake.Cluster.
Implicit Types o : customObject.

Lemma store_store e path o1 o2 :
  store (store e path o1) path o2 = store e path o2.
Proof. unfold store. cbn. by rewrite insert_insert_eq. Qed.

Lemma with_Data_with_Data o d1 d2 :
  with_Data (with_Data o d1) d2 = with_Data o d2.
Proof. reflexivity. Qed.

Lemma Data_with_Data o d : Data (with_Data o d) = d.
Proof. reflexivity. Qed.



End Writes.







(** X12.  [Delete] is idempotent on the cluster: after a successful
    [Delete] of a key, a second [Delete] of that key succeeds and changes
    nothing. *)
Theorem Delete_twice (s : Storage fake.Cluster) key e e1 :
  fake.connected s →
  Delete s key e = (e1, None) →
  Delete s key e1 = (e1, None).
Proof.
  intros Hs. rewrite !Delete_connected by done.
  destruct (fake.objects (cluster e) !! tpoEndpoint s) as [o|]; [|done].
  intros [= <-]. rewrite stored_store. cbn [fst snd].
  rewrite store_store, with_Data_with_Data, Data_with_Data.
  by rewrite delete_delete_eq.
Qed.

Lemma Delete_twice_witness :
  Delete demo.storage "/foo" (Delete demo.storage "/foo" demo.foo_store).1
  = ((Delete demo.storage "/foo" demo.foo_store).1, None).
Proof.
  apply (Delete_twice demo.storage "/foo" demo.foo_store
           (Delete demo.storage "/foo" demo.foo_store).1 eq_refl).
  vm_compute. reflexivity.
Defined.

(** X13.  No key-value method creates the backing object.  On the
    cluster, when no object is stored at the item endpoint: [Put] and
    [Delete] fail with the API's not-found status as cause and change
    nothing; [Create] changes nothing either but returns no error; and
    the error of [Search] has the API's status as cause, which the
    package's [IsNotFound] does not recognise as a missing key. *)
Theorem methods_on_a_missing_object (s : Storage fake.Cluster) key value e :
  fake.connected s →
  fake.stored (cluster e) (tpoEndpoint s) = None →
  (∃ err, Put s key value e = (e, Some err)
          ∧ Cause err = Foreign (StatusError StatusReasonNotFound))
  ∧ (∃ err, Delete s key e = (e, Some err)
            ∧ Cause err = Foreign (StatusError StatusReasonNotFound))
  ∧ Create s key value e = (e, None)
  ∧ (∃ err, Search s key e = (e, ("", Some err))
            ∧ Cause err = Foreign (StatusError StatusReasonNotFound)
            ∧ IsNotFound (Some err) = false).
Proof.
  intros Hs Hd. unfold fake.stored in Hd.
  rewrite Create_returns_nil, Search_run, getData_connected,
    Put_connected, Delete_connected by done.
  destruct (fake.objects (cluster e) !! tpoEndpoint s) as [o|]; [done|].
  cbn [fst]. repeat split; eauto.
Qed.

Lemma methods_on_a_missing_object_witness :
  Create demo.storage "/k" "v" (start fake.empty) = (start fake.empty, None).
Proof.
  apply (methods_on_a_missing_object demo.storage "/k" "v" (start fake.empty)
           eq_refl eq_refl).
Defined.

(** X14.  Reading changes nothing on the cluster: [Exists], [Search] and
    [List] leave the state exactly as it was. *)
Theorem reads_change_nothing
    (range_keys : gmap string string → list string)
    (s : Storage fake.Cluster) key e :
  fake.connected s →
  (Exists s key e).1 = e
  ∧ (Search s key e).1 = e
  ∧ (List range_keys s key e).1 = e.
Proof.
  intros Hs. rewrite Exists_run, Search_run, List_run, getData_connected
    by done.
  destruct (fake.objects (cluster e) !! tpoEndpoint s) as [o|]; [|done].
  by destruct (Data o !! key).
Qed.

Lemma reads_change_nothing_witness :
  (Exists demo.storage "/foo" demo.foo_store).1 = demo.foo_store
  ∧ (Search demo.storage "/foo" demo.foo_store).1 = demo.foo_store
  ∧ (List fake.range_keys demo.storage "/foo" demo.foo_store).1
    = demo.foo_store.
Proof.
  apply (reads_change_nothing fake.range_keys demo.storage "/foo"
           demo.foo_store eq_refl).
Defined.





(** ** Bootstrap on the cluster, from any state *)

Section FakeNew.

Implicit Types w : fake.Cluster.
Implicit Types config : Config fake.Cluster.
Implicit Types e : env fake.Cluster.



End FakeNew.





(** ** The legacy variant *)

Section LegacyAnyClient.

Context {W : Type}.
Implicit Types s : Storage W.
Implicit Types e : env W.

Lemma Legacy_getData_error s e e' data err :
  Legacy.getData s e = (e', (data, Some err)) → ∃ f, Cause err = Foreign f.
Proof.
  unfold Legacy.getData, bind, ret.
  destruct (call _ e) as [e1 [res [err1|]]].
  - intros [= <- <- <-]. by exists err1.
  - destruct (json_Unmarshal res) as [v [err2|]].
    + intros [= <- <- <-]. by exists err2.
    + intros [=].
Qed.

(** The legacy [getData] is [getData] at the hard-coded address. *)
Lemma Legacy_getData_eq s e :
  tpoEndpoint s = legacy_endpoint s →
  Legacy.getData s e = getData s e.
Proof. intros H. unfold Legacy.getData, getData. by rewrite H. Qed.

End LegacyAnyClient.

(** X19.  The legacy [Search], for every client: when the backing object
    has been fetched and decoded it returns the value stored under the
    key and, for a key that is not in the data map, the empty string with
    no error, as it does for a key that holds the empty string; and on no
    state does it return the not-found error. *)
Theorem Legacy_Search_is_silent_on_a_miss {W} (s : Storage W) key e :
  IsNotFound (Legacy.Search s key e).2.2 = false
  ∧ ∀ e' data, Legacy.getData s e = (e', (data, None)) →
      (∀ v, data !! key = Some v → Legacy.Search s key e = (e', (v, None)))
      ∧ (data !! key = None → Legacy.Search s key e = (e', ("", None))).
Proof.
  unfold Legacy.Search, bind, ret.
  destruct (Legacy.getData s e) as [e1 [data1 [err|]]] eqn:Hget.
  - destruct (Legacy_getData_error _ _ _ _ _ Hget) as [f Hf].
    split; [|by intros ? ? [=]].
    unfold IsNotFound, hasCause. cbn. by rewrite Hf.
  - split; [done|]. intros e' data [= <- <-]. split.
    + intros v Hv. by rewrite Hv.
    + intros Hk. by rewrite Hk.
Qed.

Lemma Legacy_Search_is_silent_on_a_miss_witness :
  Legacy.Search legacy_demo.storage "/nope" legacy_demo.booted
  = (legacy_demo.booted, ("", None)).
Proof.
  apply (proj2 (proj2 (Legacy_Search_is_silent_on_a_miss legacy_demo.storage
                         "/nope" legacy_demo.booted)
                      legacy_demo.booted ∅ ltac:(vm_compute; reflexivity))
               ltac:(reflexivity)).
Defined.

(** X20.  The legacy methods are the current ones at the hard-coded
    address.  For every client and every [Storage] whose item endpoint is
    the endpoint of the namespace "pawel" followed by "/storage": the
    legacy [getData] and [Create] do and return the same as the current
    ones; the legacy [Put] and [Exists] leave the same state and return
    the same value and an error of the same cause (the message differs);
    the legacy [Search] leaves the same state and returns the same when
    the current [Search] succeeds, and the empty string without error
    when the current [Search] fails with the not-found error. *)
Theorem Legacy_methods_agree_with_current {W} (s : Storage W) key value e :
  tpoEndpoint s = legacy_endpoint s →
  Legacy.getData s e = getData s e
  ∧ ((Legacy.Put s key value e).1 = (Put s key value e).1
     ∧ Cause <$> (Legacy.Put s key value e).2
       = Cause <$> (Put s key value e).2)
  ∧ Legacy.Create s key value e = Create s key value e
  ∧ ((Legacy.Exists s key e).1 = (Exists s key e).1
     ∧ (Legacy.Exists s key e).2.1 = (Exists s key e).2.1
     ∧ Cause <$> (Legacy.Exists s key e).2.2
       = Cause <$> (Exists s key e).2.2)
  ∧ ((Legacy.Search s key e).1 = (Search s key e).1
     ∧ ((Search s key e).2.2 = None →
        Legacy.Search s key e = Search s key e)
     ∧ (IsNotFound (Search s key e).2.2 = true →
        (Legacy.Search s key e).2 = ("", None))).
Proof.
  intros H.
  assert ((Legacy.Put s key value e).1 = (Put s key value e).1
          ∧ Cause <$> (Legacy.Put s key value e).2
            = Cause <$> (Put s key value e).2) as HPut.
  { unfold Legacy.Put, Put, json_Marshal, bind, ret.
    fold (legacy_endpoint s). rewrite H.
    by destruct (call _ e) as [e1 [res [err|]]]. }
  split; [by apply Legacy_getData_eq|]. split; [done|]. split.
  { unfold Legacy.Create, Create, bind, ret.
    destruct HPut as [Hst _].
    destruct (Legacy.Put s key value e) as [e1 [err1|]],
             (Put s key value e) as [e2 [err2|]];
      cbn [fst] in Hst; by subst. }
  unfold Legacy.Exists, Legacy.Search. rewrite Exists_run, Search_run.
  unfold bind, ret. rewrite Legacy_getData_eq by done.
  destruct (getData s e) as [e' [data [err|]]] eqn:Hget; cbn [fst snd].
  - destruct (getData_error _ _ _ _ _ Hget) as [f Hf].
    split; [done|]. split; [done|]. split; [done|].
    unfold IsNotFound, hasCause. cbn [microerror.Maskf Cause].
    rewrite Hf. done.
  - destruct (data !! key) as [v|] eqn:Hk; cbn [fst snd default].
    + rewrite bool_decide_eq_true_2 by eauto. done.
    + rewrite bool_decide_eq_false_2 by (by intros [? ?]). done.
Qed.

Lemma Legacy_methods_agree_with_current_witness :
  Legacy.Create legacy_demo.twin "/k" "v" legacy_demo.booted
  = Create legacy_demo.twin "/k" "v" legacy_demo.booted.
Proof.
  apply (proj1 (proj2 (proj2 (Legacy_methods_agree_with_current
                                legacy_demo.twin "/k" "v" legacy_demo.booted
                                eq_refl)))).
Defined.

(** ** The legacy bootstrap *)

Section LegacyNewRun.

Context {W : Type}.
Variable tpr_New : tpr.Config W → foreign + tpr.TPR W.

Implicit Types config : Legacy.Config W.
Implicit Types e : env W.

(** The legacy [New] on a configuration that passes its checks, step by
    step. *)
Lemma Legacy_New_run config k8s lg t e :
  Legacy.K8sClient config = Some k8s →
  Legacy.Logger config = Some lg →
  Legacy.TPRName config ≠ "" →
  Legacy.TPRVersion config ≠ "" →
  tpr_New (legacy_tpr_config config k8s lg) = inr t →
  let s := legacy_storage_for config k8s lg t in
  let r1 := tpr.CreateAndWait t (cluster e) in
  let r2 := kubernetes.Namespaces_Create k8s legacy_namespace_object r1.1 in
  let r3 := kubernetes.Post k8s (tpr.Endpoint t Legacy.namespace)
              (Marshal_customObject (legacy_backing_object t)) r2.1 in
  let l1 := legacy_step_line s "TPR" (tpr_IsAlreadyExists r1.2) in
  let l2 := legacy_step_line s ("namespace " +:+ Legacy.namespace)
              (errors_IsAlreadyExists r2.2) in
  let l3 := legacy_step_line s ("TPO " +:+ Legacy.customObjectName)
              (errors_IsAlreadyExists r3.2.2) in
  Legacy.New tpr_New config e =
    if negb (goes_on tpr_IsAlreadyExists r1.2) then
      ({| cluster := r1.1; logged := logged e |},
       (None, foreign_error <$> r1.2))
    else if negb (goes_on errors_IsAlreadyExists r2.2) then
      ({| cluster := r2.1; logged := logged e ++ [l1] |},
       (None, (λ err : foreign,
                 microerror.Maskf err "creating namespace %#v"
                   [ArgNamespace legacy_namespace_object]) <$> r2.2))
    else if negb (goes_on errors_IsAlreadyExists r3.2.2) then
      ({| cluster := r3.1; logged := logged e ++ [l1; l2] |},
       (None, (λ err : foreign,
                 microerror.Maskf err "creating TPO %#v"
                   [ArgObject (legacy_backing_object t)]) <$> r3.2.2))
    else
      ({| cluster := r3.1; logged := logged e ++ [l1; l2; l3] |},
       (Some s, None)).
Proof.
  intros Hk Hl Hn Hv Ht. unfold Legacy.New. rewrite Hk, Hl.
  do 2 (case_decide; [done|]).
  fold (legacy_tpr_config config k8s lg).
  rewrite Ht. fold (legacy_storage_for config k8s lg t).
  fold legacy_namespace_object. fold (legacy_backing_object t).
  cbv zeta. unfold bind, call, Legacy.log, Log, ret, json_Marshal,
    legacy_step_line, microerror.Mask.
  destruct e as [w lg0]. cbn [cluster logged].
  cbn [tpr_ k8sClient legacy_storage_for].
  destruct (tpr.CreateAndWait t w) as [w1 err1]; cbn [fst snd].
  destruct (tpr_IsAlreadyExists err1) eqn:Hae1;
    [rewrite goes_on_already_exists by done
    |destruct err1 as [f1|];
       [rewrite goes_on_error by done;
            rewrite <-?app_assoc; reflexivity
          |rewrite goes_on_nil]];
    cbn [negb fst snd cluster logged];
    (destruct (kubernetes.Namespaces_Create k8s _ w1) as [w2 err2];
     cbn [fst snd cluster logged];
     destruct (errors_IsAlreadyExists err2) eqn:Hae2;
       [rewrite goes_on_already_exists by done
       |destruct err2 as [f2|];
          [rewrite goes_on_error by done;
            rewrite <-?(app_assoc lg0); reflexivity
          |rewrite goes_on_nil]];
     cbn [negb fst snd cluster logged];
     (destruct (kubernetes.Post k8s _ _ w2) as [w3 [res3 err3]];
      cbn [fst snd cluster logged];
      destruct (errors_IsAlreadyExists err3) eqn:Hae3;
        [rewrite goes_on_already_exists by done
        |destruct err3 as [f3|];
           [rewrite goes_on_error by done;
            rewrite <-?(app_assoc lg0); reflexivity
          |rewrite goes_on_nil]];
      cbn [negb fst snd cluster logged]; rewrite <-?(app_assoc lg0);
      reflexivity)).
Qed.

Lemma Legacy_New_complete_not_invalid config k8s lg e :
  Legacy.K8sClient config = Some k8s →
  Legacy.Logger config = Some lg →
  Legacy.TPRName config ≠ "" →
  Legacy.TPRVersion config ≠ "" →
  IsInvalidConfig (Legacy.New tpr_New config e).2.2 = false.
Proof.
  intros Hk Hl Hn Hv.
  destruct (tpr_New (legacy_tpr_config config k8s lg)) as [f|t] eqn:Ht.
  - unfold Legacy.New. rewrite Hk, Hl. do 2 (case_decide; [done|]).
    fold (legacy_tpr_config config k8s lg). by rewrite Ht.
  - rewrite (Legacy_New_run config k8s lg t) by done. cbv zeta.
    repeat case_match; cbn [fst snd];
      first [done | by apply IsInvalidConfig_foreign].
Qed.

End LegacyNewRun.

(** X21.  The legacy [New] fails with [invalidConfigError] exactly when
    the client is nil, the logger is nil, or the name or the version of
    the resource is empty; it then returns no [Storage] and has done
    nothing.  Its default configuration, which leaves all four unset, is
    therefore never accepted as it is. *)
Theorem Legacy_New_invalid_configuration {W}
    (tpr_New : tpr.Config W → foreign + tpr.TPR W)
    (config : Legacy.Config W) e :
  (IsInvalidConfig (Legacy.New tpr_New config e).2.2 = true
   ↔ Legacy.K8sClient config = None ∨ Legacy.Logger config = None
     ∨ Legacy.TPRName config = "" ∨ Legacy.TPRVersion config = "")
  ∧ (IsInvalidConfig (Legacy.New tpr_New config e).2.2 = true →
     (Legacy.New tpr_New config e).2.1 = None
     ∧ (Legacy.New tpr_New config e).1 = e)
  ∧ IsInvalidConfig (Legacy.New tpr_New Legacy.DefaultConfig e).2.2 = true.
Proof.
  split; [|split; [|reflexivity]];
  (destruct (Legacy.K8sClient config) as [k8s|] eqn:Hk;
   [|unfold Legacy.New; rewrite Hk; cbn; try split; eauto];
   destruct (Legacy.Logger config) as [lg|] eqn:Hl;
   [|unfold Legacy.New; rewrite Hk, Hl; cbn; try split; eauto];
   destruct (decide (Legacy.TPRName config = "")) as [Hn|Hn];
   [unfold Legacy.New; rewrite Hk, Hl, decide_True by done; cbn;
    try split; eauto|];
   destruct (decide (Legacy.TPRVersion config = "")) as [Hv|Hv];
   [unfold Legacy.New; rewrite Hk, Hl, decide_False, decide_True by done;
    cbn; try split; eauto 6|];
   rewrite (Legacy_New_complete_not_invalid tpr_New config k8s lg) by done).
  - split; [done|]. intros [?|[?|[?|?]]]; done.
  - done.
Qed.

Lemma Legacy_New_invalid_configuration_witness :
  (Legacy.New fake.tpr_New (Legacy.DefaultConfig (W := fake.Cluster))
     (start fake.empty)).2.1 = None
  ∧ (Legacy.New fake.tpr_New (Legacy.DefaultConfig (W := fake.Cluster))
       (start fake.empty)).1 = start fake.empty.
Proof.
  apply (proj1 (proj2 (Legacy_New_invalid_configuration fake.tpr_New
                         Legacy.DefaultConfig (start fake.empty)))).
  reflexivity.
Defined.

(** ** The legacy variant on the cluster *)

Section LegacyConnected.

Implicit Types s : Storage fake.Cluster.
Implicit Types e : env fake.Cluster.




End LegacyConnected.





(** ** More on writes and on the default configuration *)



(** X25.  What [DefaultConfig] leaves to the caller, for every client:
    with only the client and the logger filled in, [New] still fails with
    [invalidConfigError], because the object name is required; with a
    non-empty object name filled in as well, the configuration passes the
    checks, so that an error of [New], if any, is an error of a
    collaborator. *)
Theorem DefaultConfig_needs_client_logger_and_object_name {W}
    (tpr_New : tpr.Config W → foreign + tpr.TPR W)
    (k8s : kubernetes.Interface W) (lg : micrologger.Logger) name e :
  IsInvalidConfig
    (New tpr_New
       {| K8sClient := Some k8s; Logger := Some lg;
          TPR := TPR (W := W) DefaultConfig;
          TPO := TPO (W := W) DefaultConfig |} e).2.2 = true
  ∧ (name ≠ "" →
     IsInvalidConfig
       (New tpr_New
          {| K8sClient := Some k8s; Logger := Some lg;
             TPR := TPR (W := W) DefaultConfig;
             TPO := {| TPOConfig.Name := name;
                       TPOConfig.Namespace :=
                         TPOConfig.Namespace (TPO (W := W) DefaultConfig) |}
          |} e).2.2 = false).
Proof.
  split; [reflexivity|]. intros Hname.
  by apply (New_complete_not_invalid tpr_New _ k8s lg).
Qed.

Lemma DefaultConfig_needs_client_logger_and_object_name_witness :
  IsInvalidConfig
    (New fake.tpr_New
       {| K8sClient := Some fake.client;
          Logger := Some {| micrologger.context := [] |};
          TPR := TPR (W := fake.Cluster) DefaultConfig;
          TPO := {| TPOConfig.Name := "demo";
                    TPOConfig.Namespace :=
                      TPOConfig.Namespace (TPO (W := fake.Cluster) DefaultConfig) |}
       |} (start fake.empty)).2.2 = false.
Proof.
  apply (proj2 (DefaultConfig_needs_client_logger_and_object_name
                  fake.tpr_New fake.client {| micrologger.context := [] |}
                  "demo" (start fake.empty))).
  discriminate.
Defined.
